(** * UART console of step_5_uart_console: shallow embedding and properties

    The development follows [Core/Src/console.c]: the DMA ring-buffer
    reader [task_console], the line editor [console_process_bytes] and the
    command handler [console_handle_command].  The C statics become the
    fields of one record that every function threads explicitly; the UART
    transmitter is a log of the [HAL_UART_Transmit] calls, oldest first, and
    a second log records the spans handed to the line editor.

    Two more pieces of the repository are transcribed for comparison:
    the first line editor (module [Earlier]) and the command table the
    README describes in its Step 6.3 (module [Step63]). *)

From Stdlib Require Import ZArith List Lia Bool String Ascii.
From stdpp Require Import base list.
Import ListNotations.

Local Open Scope Z_scope.

(** ** Machine integers and C strings *)

Definition uint8 (x : Z) : Z := x mod 256.
Definition uint16 (x : Z) : Z := x mod 65536.
Definition uint32 (x : Z) : Z := x mod 4294967296.

(** A C string is a list of character codes; what lies past the end of the
    list reads as the terminating NUL. *)
Definition cstr := list Z.

Definition lit (s : string) : cstr :=
  map (fun a => Z.of_N (N_of_ascii a)) (list_ascii_of_string s).

Fixpoint strlen (s : cstr) : nat :=
  match s with
  | [] => O
  | c :: s' => if c =? 0 then O else S (strlen s')
  end.

(** [strcmp]: zero exactly when the two strings agree up to and including
    their first NUL, otherwise the difference of the first differing
    characters. *)
Fixpoint strcmp (a b : cstr) : Z :=
  match a, b with
  | [], [] => 0
  | [], y :: _ => 0 - y
  | x :: _, [] => x - 0
  | x :: a', y :: b' =>
      if x =? y then (if x =? 0 then 0 else strcmp a' b') else x - y
  end.

(** ** Constants of console.c *)

Definition UART_RX_DMA_BUF_SIZE : Z := 128.
Definition LINE_BUF_SIZE : Z := 64.

Definition CR : Z := 13.
Definition LF : Z := 10.
Definition BS : Z := 8.
Definition DEL : Z := 127.

(** The string literals the code transmits. *)
Definition str_crlf : cstr := [CR; LF].
Definition str_prompt : cstr := lit "> ".
Definition str_erase : cstr := [BS; 32; BS].
Definition str_help : cstr :=
  lit "help, led off, led slow, led fast" ++ [CR; LF].

(** ** State *)

Record console : Type := Console {
  rx_pending : Z;            (* volatile uint8_t rx_pending *)
  dma_last_pos : Z;          (* static uint16_t dma_last_pos *)
  line_buf : list Z;         (* static char line_buf[LINE_BUF_SIZE] *)
  line_len : Z;              (* static uint8_t line_len *)
  uart_tx : list cstr;       (* log: one entry per HAL_UART_Transmit call *)
  rx_spans : list (Z * Z)    (* log: (offset, len) of each
                                console_process_bytes call *)
}.

Definition set_rx_pending (v : Z) (st : console) : console :=
  Console v (dma_last_pos st) (line_buf st) (line_len st)
          (uart_tx st) (rx_spans st).
Definition set_dma_last_pos (v : Z) (st : console) : console :=
  Console (rx_pending st) v (line_buf st) (line_len st)
          (uart_tx st) (rx_spans st).
Definition set_line_buf (v : list Z) (st : console) : console :=
  Console (rx_pending st) (dma_last_pos st) v (line_len st)
          (uart_tx st) (rx_spans st).
Definition set_line_len (v : Z) (st : console) : console :=
  Console (rx_pending st) (dma_last_pos st) (line_buf st) v
          (uart_tx st) (rx_spans st).
Definition set_uart_tx (v : list cstr) (st : console) : console :=
  Console (rx_pending st) (dma_last_pos st) (line_buf st) (line_len st)
          v (rx_spans st).
Definition set_rx_spans (v : list (Z * Z)) (st : console) : console :=
  Console (rx_pending st) (dma_last_pos st) (line_buf st) (line_len st)
          (uart_tx st) v.

(** The statics as the C start-up code leaves them: all zero. *)
Definition console_boot : console :=
  Console 0 0 (replicate (Z.to_nat LINE_BUF_SIZE) 0) 0 [] [].

(** ** Transmit helpers *)

(** [HAL_UART_Transmit(&huart2, data, size, HAL_MAX_DELAY)]: the first
    [size] bytes at [data] go out as one blocking transfer. *)
Definition HAL_UART_Transmit (data : cstr) (size : nat) (st : console)
  : console :=
  set_uart_tx (uart_tx st ++ [take size data]) st.

Definition console_prompt (st : console) : console :=
  HAL_UART_Transmit str_prompt 2 st.

Definition console_write (s : cstr) (st : console) : console :=
  HAL_UART_Transmit s (strlen s) st.

(** ** Command handling *)

(** The handler knows one command, help, and answers it with a fixed
    string (the local [help_msg] holds the same text and is never used);
    whatever the line was, the prompt follows. *)
Definition console_handle_command (cmd : cstr) (st : console) : console :=
  let st :=
    if strcmp cmd (lit "help") =? 0
    then console_write str_help st
    else st in
  console_prompt st.

Definition console_init (st : console) : console :=
  console_prompt st.

(** ** Line editor *)

(** One iteration of the loop of [console_process_bytes] on the byte [c].
    [char] is unsigned on the target; with a signed [char] the three tests
    below classify every byte the same way. *)
Definition console_process_byte (c : Z) (st : console) : console :=
  if (c =? CR) || (c =? LF) then
    (* ENTER *)
    let st := HAL_UART_Transmit str_crlf 2 st in
    if 0 <? line_len st then
      let st := set_line_buf (<[Z.to_nat (line_len st) := 0]> (line_buf st)) st in
      let st := console_handle_command (line_buf st) st in
      set_line_len 0 st
    else st
  else if (c =? BS) || (c =? DEL) then
    (* BACKSPACE *)
    if 0 <? line_len st then
      let st := set_line_len (uint8 (line_len st - 1)) st in
      HAL_UART_Transmit str_erase 3 st
    else st
  else if (32 <=? c) && (c <=? 126) then
    (* PRINTABLE CHARACTER *)
    if line_len st <? LINE_BUF_SIZE - 1 then
      let st := set_line_buf (<[Z.to_nat (line_len st) := c]> (line_buf st)) st in
      let st := set_line_len (uint8 (line_len st + 1)) st in
      HAL_UART_Transmit [c] 1 st
    else st
  else st.

(** [data[i]] for [data = &uart_rx_dma_buf[off]]. *)
Definition rx_byte (buf : list Z) (off i : Z) : Z :=
  default 0 (buf !! Z.to_nat (off + i)).

(** The [for] loop: [n] iterations remain, the index is [i]. *)
Fixpoint console_process_loop (buf : list Z) (off : Z) (n : nat) (i : Z)
  (st : console) : console :=
  match n with
  | O => st
  | S n' =>
      console_process_loop buf off n' (i + 1)
        (console_process_byte (rx_byte buf off i) st)
  end.

Definition console_process_bytes (buf : list Z) (off len : Z) (st : console)
  : console :=
  let st := set_rx_spans (rx_spans st ++ [(off, len)]) st in
  console_process_loop buf off (Z.to_nat len) 0 st.

(** ** Ring-buffer reader *)

(** [task_console]: [buf] is [uart_rx_dma_buf] as the DMA has filled it and
    [ndtr] is the value of [__HAL_DMA_GET_COUNTER(huart2.hdmarx)], the
    32-bit count of transfers left before the stream wraps. *)
Definition task_console (buf : list Z) (ndtr : Z) (st : console) : console :=
  if rx_pending st =? 0 then st
  else
    let st := set_rx_pending 0 st in
    let dma_pos := uint16 (uint32 (UART_RX_DMA_BUF_SIZE - ndtr)) in
    if negb (dma_pos =? dma_last_pos st) then
      let st :=
        if dma_last_pos st <? dma_pos then
          console_process_bytes buf (dma_last_pos st)
            (uint16 (dma_pos - dma_last_pos st)) st
        else
          let st :=
            console_process_bytes buf (dma_last_pos st)
              (uint16 (UART_RX_DMA_BUF_SIZE - dma_last_pos st)) st in
          if 0 <? dma_pos then console_process_bytes buf 0 dma_pos st
          else st in
      set_dma_last_pos dma_pos st
    else st.

(** ** The interrupt and the DMA stream (hardware side)

    [USART2_IRQHandler] (stm32f4xx_it.c, as the README gives it) raises
    [rx_pending] on an idle line. *)

Definition USART2_IRQHandler (st : console) : console :=
  set_rx_pending 1 st.

(** Modelled from the spec: the DMA stream that fills [uart_rx_dma_buf] is
    hardware, not code of the repository.  It runs in circular mode over
    the whole buffer: a received byte is stored at the write position,
    which is the buffer size minus the count of transfers remaining (NDTR);
    the count goes down by one and is reloaded with the buffer size when
    it reaches zero. *)
Definition dma_transfer (hw : list Z * Z) (b : Z) : list Z * Z :=
  let '(buf, ndtr) := hw in
  (<[Z.to_nat (UART_RX_DMA_BUF_SIZE - ndtr) := b]> buf,
   if ndtr - 1 =? 0 then UART_RX_DMA_BUF_SIZE else ndtr - 1).

Definition dma_receive (bs : list Z) (hw : list Z * Z) : list Z * Z :=
  fold_left dma_transfer bs hw.

(** ** Derived notions used in the statements *)

(** The write position [task_console] computes from the counter. *)
Definition dma_pos (ndtr : Z) : Z :=
  uint16 (uint32 (UART_RX_DMA_BUF_SIZE - ndtr)).

(** Feeding a byte sequence to the line editor, one loop iteration each. *)
Definition feed (bs : list Z) (st : console) : console :=
  fold_left (fun s c => console_process_byte c s) bs st.

(** The spans a step handed to [console_process_bytes]. *)
Definition handed (st st' : console) : list (Z * Z) :=
  drop (length (rx_spans st)) (rx_spans st').

(** The transmit calls a step made. *)
Definition sent (st st' : console) : list cstr :=
  drop (length (uart_tx st)) (uart_tx st').

(** How many of the transfers in a log carry exactly the string [s]. *)
Definition transfers_of (s : cstr) (log : list cstr) : nat :=
  count_occ (List.list_eq_dec Z.eq_dec) log s.

(** The bytes of a span of the ring buffer, and of a list of spans. *)
Definition span_bytes (buf : list Z) (sp : Z * Z) : list Z :=
  take (Z.to_nat (snd sp)) (drop (Z.to_nat (fst sp)) buf).

Definition replay (buf : list Z) (spans : list (Z * Z)) : list Z :=
  concat (map (span_bytes buf) spans).

(** The line typed so far. *)
Definition line_text (st : console) : list Z :=
  take (Z.to_nat (line_len st)) (line_buf st).

Definition printable (c : Z) : Prop := 32 <= c <= 126.

(** What the line editor relies on between bytes. *)
Definition line_inv (st : console) : Prop :=
  0 <= line_len st <= LINE_BUF_SIZE - 1 /\
  length (line_buf st) = Z.to_nat LINE_BUF_SIZE.

(** States the firmware can be in between two steps of the main loop: after
    [console_init], and from there after any interleaving of idle
    interrupts and polls, the DMA counter being whatever a circular stream
    can show. *)
Inductive reachable : console -> Prop :=
| reach_init : reachable (console_init console_boot)
| reach_irq st : reachable st -> reachable (USART2_IRQHandler st)
| reach_poll st buf ndtr :
    reachable st ->
    1 <= ndtr <= UART_RX_DMA_BUF_SIZE ->
    reachable (task_console buf ndtr st).

(** What [console_handle_command] writes before the prompt. *)
Definition command_reply (cmd : cstr) : list cstr :=
  if strcmp cmd (lit "help") =? 0 then [str_help] else [].

(** The spans [task_console] hands over, branch by branch. *)
Definition poll_spans (last head : Z) : list (Z * Z) :=
  if head =? last then []
  else if last <? head then [(last, head - last)]
  else (last, UART_RX_DMA_BUF_SIZE - last)
         :: (if 0 <? head then [(0, head)] else []).

(** The echo of a run of accepted characters: one transmit call each. *)
Definition echo (bs : list Z) : list cstr := map (fun c => [c]) bs.

(** ** A console session

    The firmware boots, [console_init] runs, the bytes [bs] arrive over the
    wire, the line goes idle and the main loop polls once. *)
Definition session (bs : list Z) : console :=
  let st := console_init console_boot in
  let hw := dma_receive bs (replicate (Z.to_nat UART_RX_DMA_BUF_SIZE) 0,
                            UART_RX_DMA_BUF_SIZE) in
  task_console (fst hw) (snd hw) (USART2_IRQHandler st).

(** The bytes a session puts on the wire after the initial prompt. *)
Definition session_output (bs : list Z) : list cstr :=
  sent (console_init console_boot) (session bs).

(** ** The first line editor

    The earlier revision of [console_process_bytes] (src/unnamed/part_000,
    also the code of Step 3 of the README): no echo, no backspace, the
    whole line is sent back on Enter, and a byte that does not fit empties
    the line. *)
Module Earlier.

Definition console_process_byte (c : Z) (st : console) : console :=
  if (c =? CR) || (c =? LF) then
    if 0 <? line_len st then
      let st := set_line_buf (<[Z.to_nat (line_len st) := 0]> (line_buf st)) st in
      let st := HAL_UART_Transmit (line_buf st) (Z.to_nat (line_len st)) st in
      let st := HAL_UART_Transmit str_crlf 2 st in
      set_line_len 0 st
    else st
  else if line_len st <? LINE_BUF_SIZE - 1 then
    let st := set_line_buf (<[Z.to_nat (line_len st) := c]> (line_buf st)) st in
    set_line_len (uint8 (line_len st + 1)) st
  else
    set_line_len 0 st.

Definition feed (bs : list Z) (st : console) : console :=
  fold_left (fun s c => console_process_byte c s) bs st.

End Earlier.

(** ** The command table of the README (Step 6.3)

    The README tells the reader to add a command table, the handlers
    [cmd_help] and [cmd_led] and the dispatcher [console_execute] to
    console.c; console.c itself has none of them.  They are transcribed
    here from the README so that what it documents can be set against what
    [console_handle_command] does.  A handler is a tag instead of a function
    pointer; the LED driver is a mode and a log of the [led_set_mode]
    calls. *)
Module Step63.

Inductive led_mode_t : Type := LED_MODE_OFF | LED_MODE_SLOW | LED_MODE_FAST.

Record board : Type := Board {
  con : console;
  led_mode : led_mode_t;               (* led.mode in main.c *)
  led_set_mode_calls : list led_mode_t (* log of the led_set_mode calls *)
}.

Definition led_set_mode (mode : led_mode_t) (b : board) : board :=
  Board (con b) mode (led_set_mode_calls b ++ [mode]).

Definition write (s : cstr) (b : board) : board :=
  Board (console_write s (con b)) (led_mode b) (led_set_mode_calls b).

Definition prompt (b : board) : board :=
  Board (console_prompt (con b)) (led_mode b) (led_set_mode_calls b).

Inductive console_cmd_fn_t : Type := fn_cmd_help | fn_cmd_led.

Record console_cmd_t : Type := Cmd {
  name : cstr;
  fn : console_cmd_fn_t;
  help : cstr
}.

Definition cmd_table : list console_cmd_t :=
  [ Cmd (lit "help") fn_cmd_help (lit "show this help");
    Cmd (lit "led") fn_cmd_led (lit "led off|slow|fast") ].

Definition cmd_led (argv : list cstr) (b : board) : board :=
  if (length argv <? 2)%nat then
    write (lit "usage: led off|slow|fast" ++ [CR; LF]) b
  else
    let arg := nth 1 argv [] in
    if strcmp arg (lit "off") =? 0 then
      write (lit "ok" ++ [CR; LF]) (led_set_mode LED_MODE_OFF b)
    else if strcmp arg (lit "slow") =? 0 then
      write (lit "ok" ++ [CR; LF]) (led_set_mode LED_MODE_SLOW b)
    else if strcmp arg (lit "fast") =? 0 then
      write (lit "ok" ++ [CR; LF]) (led_set_mode LED_MODE_FAST b)
    else
      write (lit "invalid mode" ++ [CR; LF]) b.

Definition cmd_help (argv : list cstr) (b : board) : board :=
  fold_left
    (fun b e =>
       write [CR; LF] (write (help e) (write (lit " - ") (write (name e) b))))
    cmd_table b.

Definition call (f : console_cmd_fn_t) (argv : list cstr) (b : board)
  : board :=
  match f with
  | fn_cmd_help => cmd_help argv b
  | fn_cmd_led => cmd_led argv b
  end.

(** The tokens [strtok(line, " ")] returns one after the other: the maximal
    runs of characters other than a space, up to the terminating NUL.
    [cur] is the token being read, last character first. *)
Fixpoint strtok_all (s : cstr) (cur : cstr) : list cstr :=
  let flush := match cur with [] => [] | _ => [rev cur] end in
  match s with
  | [] => flush
  | c :: s' =>
      if c =? 0 then flush
      else if c =? 32 then flush ++ strtok_all s' []
      else strtok_all s' (c :: cur)
  end.

(** The search loop of [console_execute]. *)
Fixpoint lookup_cmd (arg0 : cstr) (table : list console_cmd_t)
  : option console_cmd_t :=
  match table with
  | [] => None
  | e :: table' =>
      if strcmp arg0 (name e) =? 0 then Some e else lookup_cmd arg0 table'
  end.

Definition console_execute (line : cstr) (b : board) : board :=
  let argv := take 8 (strtok_all line []) in
  match argv with
  | [] => b
  | arg0 :: _ =>
      match lookup_cmd arg0 cmd_table with
      | Some e => call (fn e) argv b
      | None => prompt (write (lit "unknown command" ++ [CR; LF]) b)
      end
  end.

(** A board whose console has just been initialised and whose LED is off. *)
Definition board_boot : board :=
  Board (console_init console_boot) LED_MODE_OFF [].

End Step63.

(** ** Notions for the further properties *)

(** The characters of a C string, up to its first NUL. *)
Definition cstr_of (s : cstr) : list Z := take (strlen s) s.

(** The bytes the line editor reacts to: terminators, erase bytes and
    printable characters. *)
Definition significant (c : Z) : bool :=
  ((c =? CR) || (c =? LF)) || ((c =? BS) || (c =? DEL))
  || ((32 <=? c) && (c <=? 126)).

Definition terminator (c : Z) : Prop := c = CR \/ c = LF.
Definition erase_byte (c : Z) : Prop := c = BS \/ c = DEL.

(** A valid line that holds printable characters only. *)
Definition line_ok (st : console) : Prop :=
  line_inv st /\ Forall printable (line_text st).

(** Two states with the same line and the same transmit log. *)
Definition same_line (st1 st2 : console) : Prop :=
  line_buf st1 = line_buf st2 /\
  line_len st1 = line_len st2 /\
  uart_tx st1 = uart_tx st2.

(** One turn of the system: the bytes [bs] arrive, the line goes idle, the
    interrupt fires and the main loop polls.  [run] does this for one burst
    after the other. *)
Definition poll_once (sys : console * (list Z * Z)) (bs : list Z)
  : console * (list Z * Z) :=
  let hw := dma_receive bs (snd sys) in
  (task_console (fst hw) (snd hw) (USART2_IRQHandler (fst sys)), hw).

Definition run (bursts : list (list Z)) (sys : console * (list Z * Z))
  : console * (list Z * Z) :=
  fold_left poll_once bursts sys.

(** The reader and the DMA stream agree on where the unread bytes start. *)
Definition in_step (sys : console * (list Z * Z)) : Prop :=
  length (fst (snd sys)) = Z.to_nat UART_RX_DMA_BUF_SIZE /\
  1 <= snd (snd sys) <= UART_RX_DMA_BUF_SIZE /\
  dma_last_pos (fst sys) = UART_RX_DMA_BUF_SIZE - snd (snd sys).

(** A span that lies within the receive buffer. *)
Definition span_in_buffer (sp : Z * Z) : Prop :=
  0 <= fst sp /\ 0 <= snd sp /\ fst sp + snd sp <= UART_RX_DMA_BUF_SIZE.

(** The mode a word of the led command stands for, if any. *)
Definition led_word (w : list Z) : option Step63.led_mode_t :=
  if decide (w = lit "off") then Some Step63.LED_MODE_OFF
  else if decide (w = lit "slow") then Some Step63.LED_MODE_SLOW
  else if decide (w = lit "fast") then Some Step63.LED_MODE_FAST
  else None.

(** Unfolds one step of the editor far enough to compare the fields it
    leaves alone. *)
Ltac editor_frame :=
  unfold console_process_byte, console_handle_command, console_write,
    console_prompt;
  cbn [HAL_UART_Transmit set_uart_tx set_line_buf set_line_len
       set_rx_pending set_dma_last_pos set_rx_spans
       rx_pending dma_last_pos line_buf line_len uart_tx rx_spans];
  repeat case_match; reflexivity.

(** * Properties *)

(** ** Basic facts about the logs and the setters *)

Lemma sent_app (st st' : console) (out : list cstr) :
  uart_tx st' = uart_tx st ++ out -> sent st st' = out.
Proof.
  intros H. unfold sent. rewrite H. by rewrite drop_app_length.
Qed.

Lemma handed_app (st st' : console) (sp : list (Z * Z)) :
  rx_spans st' = rx_spans st ++ sp -> handed st st' = sp.
Proof.
  intros H. unfold handed. rewrite H. by rewrite drop_app_length.
Qed.

Lemma uint8_small (x : Z) : 0 <= x < 256 -> uint8 x = x.
Proof. intros H. unfold uint8. by apply Z.mod_small. Qed.

Lemma uint16_small (x : Z) : 0 <= x < 65536 -> uint16 x = x.
Proof. intros H. unfold uint16. by apply Z.mod_small. Qed.

Lemma uint32_small (x : Z) : 0 <= x < 4294967296 -> uint32 x = x.
Proof. intros H. unfold uint32. by apply Z.mod_small. Qed.

Lemma dma_pos_small (ndtr : Z) :
  0 <= ndtr <= UART_RX_DMA_BUF_SIZE ->
  dma_pos ndtr = UART_RX_DMA_BUF_SIZE - ndtr.
Proof.
  unfold dma_pos, UART_RX_DMA_BUF_SIZE. intros H.
  rewrite uint32_small by lia. apply uint16_small. lia.
Qed.

(** ** The command handler *)

Lemma transmit_whole (s : cstr) (n : nat) (st : console) :
  take n s = s ->
  HAL_UART_Transmit s n st = set_uart_tx (uart_tx st ++ [s]) st.
Proof. intros H. unfold HAL_UART_Transmit. by rewrite H. Qed.

Lemma console_prompt_tx (st : console) :
  console_prompt st = set_uart_tx (uart_tx st ++ [str_prompt]) st.
Proof. by apply transmit_whole. Qed.

Lemma console_write_help_tx (st : console) :
  console_write str_help st = set_uart_tx (uart_tx st ++ [str_help]) st.
Proof. by apply transmit_whole. Qed.

Lemma console_handle_command_tx (cmd : cstr) (st : console) :
  console_handle_command cmd st =
  set_uart_tx (uart_tx st ++ command_reply cmd ++ [str_prompt]) st.
Proof.
  unfold console_handle_command, command_reply.
  destruct (strcmp cmd (lit "help") =? 0).
  - rewrite console_write_help_tx, console_prompt_tx.
    destruct st; unfold set_uart_tx; simpl uart_tx.
    by rewrite <- app_assoc.
  - by rewrite console_prompt_tx.
Qed.

Lemma prompt_not_in_reply (cmd : cstr) : str_prompt ∉ command_reply cmd.
Proof.
  unfold command_reply.
  destruct (strcmp cmd (lit "help") =? 0).
  - intros H. apply list_elem_of_singleton in H. discriminate H.
  - apply not_elem_of_nil.
Qed.

(** ** One byte of each class *)

Lemma transmit_crlf (st : console) :
  HAL_UART_Transmit str_crlf 2 st = set_uart_tx (uart_tx st ++ [str_crlf]) st.
Proof. by apply transmit_whole. Qed.

Lemma transmit_erase (st : console) :
  HAL_UART_Transmit str_erase 3 st =
  set_uart_tx (uart_tx st ++ [str_erase]) st.
Proof. by apply transmit_whole. Qed.

Lemma transmit_echo (c : Z) (st : console) :
  HAL_UART_Transmit [c] 1 st = set_uart_tx (uart_tx st ++ [[c]]) st.
Proof. by apply transmit_whole. Qed.

Lemma is_terminator (c : Z) :
  c = CR \/ c = LF -> (c =? CR) || (c =? LF) = true.
Proof. intros [->| ->]; reflexivity. Qed.

Lemma is_erase (c : Z) :
  c = BS \/ c = DEL ->
  (c =? CR) || (c =? LF) = false /\ (c =? BS) || (c =? DEL) = true.
Proof. intros [->| ->]; split; reflexivity. Qed.

Lemma process_terminator_empty (c : Z) (st : console) :
  c = CR \/ c = LF -> line_len st = 0 ->
  console_process_byte c st = set_uart_tx (uart_tx st ++ [str_crlf]) st.
Proof.
  intros Hc Hlen. unfold console_process_byte.
  rewrite (is_terminator c Hc), transmit_crlf.
  unfold set_uart_tx at 1; simpl line_len. by rewrite Hlen.
Qed.

Lemma process_terminator_line (c : Z) (st : console) :
  c = CR \/ c = LF -> 0 < line_len st ->
  let cmd := <[Z.to_nat (line_len st) := 0]> (line_buf st) in
  console_process_byte c st =
  Console (rx_pending st) (dma_last_pos st) cmd 0
    (uart_tx st ++ [str_crlf] ++ command_reply cmd ++ [str_prompt])
    (rx_spans st).
Proof.
  intros Hc Hlen cmd. unfold console_process_byte.
  rewrite (is_terminator c Hc), transmit_crlf.
  unfold set_uart_tx at 1; simpl line_len.
  destruct (Z.ltb_spec 0 (line_len st)) as [_|]; [|lia].
  rewrite console_handle_command_tx.
  unfold set_line_len, set_uart_tx, set_line_buf; simpl. fold cmd.
  by rewrite <- app_assoc.
Qed.

Lemma process_erase (c : Z) (st : console) :
  c = BS \/ c = DEL ->
  console_process_byte c st =
  if 0 <? line_len st
  then Console (rx_pending st) (dma_last_pos st) (line_buf st)
         (uint8 (line_len st - 1)) (uart_tx st ++ [str_erase]) (rx_spans st)
  else st.
Proof.
  intros Hc. unfold console_process_byte.
  destruct (is_erase c Hc) as [-> ->].
  destruct (0 <? line_len st); [|done].
  by rewrite transmit_erase.
Qed.

Lemma process_printable (c : Z) (st : console) :
  printable c ->
  console_process_byte c st =
  if line_len st <? LINE_BUF_SIZE - 1
  then Console (rx_pending st) (dma_last_pos st)
         (<[Z.to_nat (line_len st) := c]> (line_buf st))
         (uint8 (line_len st + 1)) (uart_tx st ++ [[c]]) (rx_spans st)
  else st.
Proof.
  unfold printable, console_process_byte, CR, LF, BS, DEL. intros Hc.
  replace ((c =? 13) || (c =? 10)) with false by lia.
  replace ((c =? 8) || (c =? 127)) with false by lia.
  replace ((32 <=? c) && (c <=? 126)) with true by lia.
  destruct (line_len st <? LINE_BUF_SIZE - 1); [|done].
  by rewrite transmit_echo.
Qed.

(** ** The editor leaves the reader's variables alone *)

Lemma process_byte_rx_pending (c v : Z) (st : console) :
  console_process_byte c (set_rx_pending v st) =
  set_rx_pending v (console_process_byte c st).
Proof. editor_frame. Qed.

Lemma process_byte_dma_last_pos (c v : Z) (st : console) :
  console_process_byte c (set_dma_last_pos v st) =
  set_dma_last_pos v (console_process_byte c st).
Proof. editor_frame. Qed.

Lemma process_byte_rx_spans (c : Z) (v : list (Z * Z)) (st : console) :
  console_process_byte c (set_rx_spans v st) =
  set_rx_spans v (console_process_byte c st).
Proof. editor_frame. Qed.

Lemma process_byte_frame (c : Z) (st : console) :
  rx_pending (console_process_byte c st) = rx_pending st /\
  dma_last_pos (console_process_byte c st) = dma_last_pos st /\
  rx_spans (console_process_byte c st) = rx_spans st.
Proof. repeat split; editor_frame. Qed.

Lemma feed_cons (b : Z) (bs : list Z) (st : console) :
  feed (b :: bs) st = feed bs (console_process_byte b st).
Proof. reflexivity. Qed.

Lemma feed_rx_pending (bs : list Z) (v : Z) (st : console) :
  feed bs (set_rx_pending v st) = set_rx_pending v (feed bs st).
Proof.
  revert st. induction bs as [|b bs IH]; intros st; [done|].
  rewrite !feed_cons, process_byte_rx_pending. apply IH.
Qed.

Lemma feed_rx_spans (bs : list Z) (v : list (Z * Z)) (st : console) :
  feed bs (set_rx_spans v st) = set_rx_spans v (feed bs st).
Proof.
  revert st. induction bs as [|b bs IH]; intros st; [done|].
  rewrite !feed_cons, process_byte_rx_spans. apply IH.
Qed.

Lemma feed_frame (bs : list Z) (st : console) :
  rx_pending (feed bs st) = rx_pending st /\
  dma_last_pos (feed bs st) = dma_last_pos st /\
  rx_spans (feed bs st) = rx_spans st.
Proof.
  revert st. induction bs as [|b bs IH]; intros st; [done|].
  rewrite feed_cons.
  destruct (IH (console_process_byte b st)) as (-> & -> & ->).
  apply process_byte_frame.
Qed.

Lemma feed_app (bs1 bs2 : list Z) (st : console) :
  feed (bs1 ++ bs2) st = feed bs2 (feed bs1 st).
Proof. unfold feed. apply fold_left_app. Qed.

(** ** A span call is a feed of the bytes of the span *)

Lemma process_loop_feed (buf : list Z) (off : Z) (n : nat) (i : Z)
  (st : console) :
  0 <= off + i ->
  (Z.to_nat (off + i) + n <= length buf)%nat ->
  console_process_loop buf off n i st =
  feed (take n (drop (Z.to_nat (off + i)) buf)) st.
Proof.
  revert i st. induction n as [|n IH]; intros i st Hi Hn.
  - by rewrite take_0.
  - cbn [console_process_loop].
    destruct (lookup_lt_is_Some_2 buf (Z.to_nat (off + i))) as [x Hx];
      [lia|].
    rewrite (drop_S _ _ _ Hx). cbn [take]. rewrite feed_cons.
    unfold rx_byte. rewrite Hx. cbn [default from_option].
    rewrite IH by lia.
    replace (Z.to_nat (off + (i + 1))) with (S (Z.to_nat (off + i))) by lia.
    reflexivity.
Qed.

Lemma process_bytes_feed (buf : list Z) (off len : Z) (st : console) :
  0 <= off -> 0 <= len -> off + len <= Z.of_nat (length buf) ->
  console_process_bytes buf off len st =
  set_rx_spans (rx_spans st ++ [(off, len)])
    (feed (span_bytes buf (off, len)) st).
Proof.
  intros Hoff Hlen Hfit. unfold console_process_bytes, span_bytes.
  rewrite process_loop_feed by lia.
  rewrite feed_rx_spans. cbn [fst snd].
  by replace (off + 0) with off by lia.
Qed.

(** ** The poll as a whole *)

Lemma task_console_idle (buf : list Z) (ndtr : Z) (st : console) :
  rx_pending st = 0 -> task_console buf ndtr st = st.
Proof. intros H. unfold task_console. by rewrite H. Qed.

Lemma task_console_pending (buf : list Z) (ndtr : Z) (st : console) :
  rx_pending st <> 0 ->
  length buf = Z.to_nat UART_RX_DMA_BUF_SIZE ->
  0 <= dma_last_pos st <= UART_RX_DMA_BUF_SIZE ->
  0 <= dma_pos ndtr <= UART_RX_DMA_BUF_SIZE ->
  let spans := poll_spans (dma_last_pos st) (dma_pos ndtr) in
  task_console buf ndtr st =
  set_dma_last_pos (dma_pos ndtr)
    (set_rx_spans (rx_spans st ++ spans)
       (feed (replay buf spans) (set_rx_pending 0 st))).
Proof.
  intros Hp Hbuf Hlast Hhead spans. subst spans.
  unfold task_console, poll_spans.
  destruct (Z.eqb_spec (rx_pending st) 0) as [|_]; [done|].
  fold (dma_pos ndtr). set (head := dma_pos ndtr) in *.
  cbn [set_rx_pending dma_last_pos]. set (last := dma_last_pos st) in *.
  set (st0 := Console 0 last (line_buf st) (line_len st) (uart_tx st)
                (rx_spans st)).
  change (set_rx_pending 0 st) with st0.
  unfold UART_RX_DMA_BUF_SIZE in *.
  destruct (Z.eqb_spec head last) as [Heq|Hne]; cbn [negb].
  - cbn [replay map concat feed fold_left]. rewrite app_nil_r.
    rewrite Heq. reflexivity.
  - destruct (Z.ltb_spec last head) as [Hlt|Hge].
    + rewrite uint16_small by lia.
      rewrite process_bytes_feed by lia.
      cbn [replay map concat]. rewrite app_nil_r. reflexivity.
    + rewrite uint16_small by lia.
      rewrite (process_bytes_feed buf last) by lia.
      destruct (Z.ltb_spec 0 head) as [Hpos|Hzero].
      * rewrite (process_bytes_feed buf 0) by lia.
        cbn [replay map concat]. rewrite app_nil_r, feed_app.
        rewrite feed_rx_spans. cbn [set_rx_spans rx_spans].
        rewrite <- app_assoc. reflexivity.
      * cbn [replay map concat]. rewrite app_nil_r. reflexivity.
Qed.

(** ** The DMA stream *)

Lemma dma_receive_cons (b : Z) (bs : list Z) (hw : list Z * Z) :
  dma_receive (b :: bs) hw = dma_receive bs (dma_transfer hw b).
Proof. reflexivity. Qed.

Lemma dma_receive_app (bs1 bs2 : list Z) (hw : list Z * Z) :
  dma_receive (bs1 ++ bs2) hw = dma_receive bs2 (dma_receive bs1 hw).
Proof. unfold dma_receive. apply fold_left_app. Qed.

(** As long as the stream does not pass the end of the buffer the bytes
    land next to each other, starting at the write position. *)
Lemma dma_receive_nowrap (bs buf : list Z) (ndtr : Z) :
  length buf = 128%nat ->
  1 <= ndtr <= 128 ->
  Z.of_nat (length bs) <= ndtr ->
  dma_receive bs (buf, ndtr) =
  (take (Z.to_nat (128 - ndtr)) buf ++ bs
     ++ drop (Z.to_nat (128 - ndtr) + length bs) buf,
   if ndtr - Z.of_nat (length bs) =? 0 then 128
   else ndtr - Z.of_nat (length bs)).
Proof.
  revert buf ndtr. induction bs as [|b bs IH]; intros buf ndtr Hbuf Hn Hfit.
  - cbn [dma_receive fold_left length app]. rewrite Nat.add_0_r, take_drop.
    destruct (Z.eqb_spec (ndtr - Z.of_nat 0) 0); [lia|].
    f_equal. lia.
  - rewrite dma_receive_cons. unfold dma_transfer, UART_RX_DMA_BUF_SIZE.
    set (p := Z.to_nat (128 - ndtr)).
    assert (Hp : (p < length buf)%nat) by lia.
    cbn [length] in Hfit |- *.
    destruct (Z.eqb_spec (ndtr - 1) 0) as [Hone|Hmore].
    + destruct bs as [|b' bs]; [|cbn [length] in Hfit; lia].
      cbn [dma_receive fold_left length].
      rewrite (insert_take_drop buf p b Hp).
      replace (p + 1)%nat with (S p) by lia.
      destruct (Z.eqb_spec (ndtr - Z.of_nat 1) 0); [done|lia].
    + rewrite IH by (rewrite ?length_insert; lia).
      replace (Z.to_nat (128 - (ndtr - 1))) with (S p) by lia.
      replace (ndtr - 1 - Z.of_nat (length bs))
        with (ndtr - Z.of_nat (S (length bs))) by lia.
      f_equal.
      rewrite (take_S_r (<[p:=b]> buf) p b)
        by (by apply list_lookup_insert_eq).
      rewrite take_insert_ge by lia.
      rewrite drop_insert_lt by lia.
      rewrite <- app_assoc.
      by replace (S p + length bs)%nat with (p + S (length bs))%nat by lia.
Qed.

(** Fewer than a buffer's worth of bytes, received from the position the
    reader last saw: the counter stays in [1, 128], the write position
    advances modulo the buffer size, and the spans [task_console] computes
    hold exactly the received bytes, in order. *)
Lemma dma_receive_replay (buf0 bs : list Z) (last : Z) :
  length buf0 = 128%nat ->
  0 <= last < 128 ->
  (length bs < 128)%nat ->
  let hw := dma_receive bs (buf0, 128 - last) in
  length (fst hw) = 128%nat /\
  1 <= snd hw <= 128 /\
  dma_pos (snd hw) = (last + Z.of_nat (length bs)) mod 128 /\
  replay (fst hw) (poll_spans last (dma_pos (snd hw))) = bs.
Proof.
  intros Hbuf Hlast Hlen hw. subst hw.
  set (n := length bs) in *.
  destruct (Z_le_gt_dec (Z.of_nat n) (128 - last)) as [Hfit|Hwrap].
  - rewrite dma_receive_nowrap by (fold n; lia).
    fold n. replace (Z.to_nat (128 - (128 - last))) with (Z.to_nat last) by lia.
    cbn [fst snd].
    set (buf := take (Z.to_nat last) buf0 ++ bs ++ drop (Z.to_nat last + n) buf0).
    assert (Hl : length buf = 128%nat).
    { subst buf. rewrite !length_app, length_take, length_drop. lia. }
    assert (Hspan : forall len, len = Z.of_nat n ->
              span_bytes buf (last, len) = bs).
    { intros len ->. unfold span_bytes, buf. cbn [fst snd].
      rewrite drop_app_length' by (rewrite length_take; lia).
      rewrite Nat2Z.id. by apply take_app_length'. }
    split; [done|].
    destruct (Z.eqb_spec (128 - last - Z.of_nat n) 0) as [Hend|Hmid].
    + split; [lia|]. rewrite dma_pos_small by (unfold UART_RX_DMA_BUF_SIZE; lia).
      unfold UART_RX_DMA_BUF_SIZE.
      split.
      { replace (last + Z.of_nat n) with 128 by lia. reflexivity. }
      unfold poll_spans, UART_RX_DMA_BUF_SIZE.
      destruct (Z.eqb_spec (128 - 128) last); [lia|].
      destruct (Z.ltb_spec last (128 - 128)); [lia|].
      cbn [Z.ltb Z.sub Z.compare Z.opp Z.add Z.pos_sub replay map concat].
      change (0 <? 128 - 128) with false.
      cbn [replay map concat]. rewrite app_nil_r. apply Hspan. lia.
    + split; [lia|]. rewrite dma_pos_small by (unfold UART_RX_DMA_BUF_SIZE; lia).
      unfold UART_RX_DMA_BUF_SIZE.
      replace (128 - (128 - last - Z.of_nat n)) with (last + Z.of_nat n) by lia.
      split; [by rewrite Z.mod_small by lia|].
      unfold poll_spans.
      destruct (Z.eqb_spec (last + Z.of_nat n) last) as [Hz|Hnz].
      * destruct bs; [done|]. cbn [length] in n. lia.
      * destruct (Z.ltb_spec last (last + Z.of_nat n)); [|lia].
        cbn [replay map concat]. rewrite app_nil_r. apply Hspan. lia.
  - set (k := Z.to_nat (128 - last)).
    rewrite <- (take_drop k bs), dma_receive_app.
    set (bs1 := take k bs). set (bs2 := drop k bs).
    assert (H1 : length bs1 = k) by (subst bs1; rewrite length_take; lia).
    assert (H2 : length bs2 = (n - k)%nat) by (subst bs2; by rewrite length_drop).
    rewrite (dma_receive_nowrap bs1) by lia.
    rewrite H1.
    replace (128 - last - Z.of_nat k) with 0 by lia.
    change (0 =? 0) with true. cbn match.
    replace (Z.to_nat (128 - (128 - last))) with (Z.to_nat last) by lia.
    rewrite (drop_ge buf0) by lia. rewrite app_nil_r.
    set (buf1 := take (Z.to_nat last) buf0 ++ bs1).
    assert (Hl1 : length buf1 = 128%nat).
    { subst buf1. rewrite length_app, length_take. lia. }
    rewrite (dma_receive_nowrap bs2) by lia.
    change (Z.to_nat (128 - 128)) with 0%nat.
    rewrite take_0. cbn [app Nat.add fst snd]. rewrite H2.
    destruct (Z.eqb_spec (128 - Z.of_nat (n - k)) 0); [lia|].
    set (buf := bs2 ++ drop (n - k) buf1).
    split; [subst buf; rewrite length_app, length_drop; lia|].
    split; [lia|].
    rewrite dma_pos_small by (unfold UART_RX_DMA_BUF_SIZE; lia).
    unfold UART_RX_DMA_BUF_SIZE.
    replace (128 - (128 - Z.of_nat (n - k))) with (Z.of_nat (n - k)) by lia.
    split.
    { replace (last + Z.of_nat n) with (Z.of_nat (n - k) + 1 * 128) by lia.
      rewrite Z.mod_add by lia. by rewrite Z.mod_small by lia. }
    unfold poll_spans, UART_RX_DMA_BUF_SIZE.
    destruct (Z.eqb_spec (Z.of_nat (n - k)) last); [lia|].
    destruct (Z.ltb_spec last (Z.of_nat (n - k))); [lia|].
    destruct (Z.ltb_spec 0 (Z.of_nat (n - k))); [|lia].
    cbn [replay map concat]. rewrite app_nil_r.
    unfold span_bytes. cbn [fst snd].
    f_equal.
    + subst buf. rewrite drop_app_ge by lia. rewrite H2, drop_drop.
      replace (n - k + (Z.to_nat last - (n - k)))%nat with (Z.to_nat last) by lia.
      subst buf1. rewrite drop_app_length' by (rewrite length_take; lia).
      apply take_ge. lia.
    + change (Z.to_nat 0) with 0%nat. rewrite drop_0, Nat2Z.id.
      subst buf. by apply take_app_length'.
Qed.

(** ** The line editor's invariant *)

Lemma process_other (c : Z) (st : console) :
  ~ (c = CR \/ c = LF) -> ~ (c = BS \/ c = DEL) -> ~ printable c ->
  console_process_byte c st = st.
Proof.
  unfold printable, console_process_byte, CR, LF, BS, DEL. intros H1 H2 H3.
  replace ((c =? 13) || (c =? 10)) with false by lia.
  replace ((c =? 8) || (c =? 127)) with false by lia.
  by replace ((32 <=? c) && (c <=? 126)) with false by lia.
Qed.

Lemma byte_class (c : Z) :
  (c = CR \/ c = LF) \/ (c = BS \/ c = DEL) \/ printable c \/
  (forall st, console_process_byte c st = st).
Proof.
  destruct (decide (c = CR \/ c = LF)) as [|H1]; [by left|].
  destruct (decide (c = BS \/ c = DEL)) as [|H2]; [by right; left|].
  destruct (decide (32 <= c <= 126)) as [|H3]; [by right; right; left|].
  right; right; right. intros st. by apply process_other.
Qed.

Lemma process_byte_line_inv (c : Z) (st : console) :
  line_inv st -> line_inv (console_process_byte c st).
Proof.
  unfold line_inv, LINE_BUF_SIZE. intros [Hlen Hbuf].
  destruct (byte_class c) as [Hc|[Hc|[Hc|Hc]]].
  - destruct (decide (line_len st = 0)) as [Hz|Hnz].
    + rewrite (process_terminator_empty c st Hc Hz). cbn. lia.
    + rewrite (process_terminator_line c st Hc) by lia. cbn.
      rewrite length_insert. lia.
  - rewrite (process_erase c st Hc).
    destruct (Z.ltb_spec 0 (line_len st)); [|done].
    cbn [line_len line_buf]. rewrite uint8_small by lia. lia.
  - rewrite (process_printable c st Hc). unfold LINE_BUF_SIZE.
    destruct (Z.ltb_spec (line_len st) (64 - 1)); [|done].
    cbn [line_len line_buf]. rewrite uint8_small by lia.
    rewrite length_insert. lia.
  - by rewrite Hc.
Qed.

Lemma feed_line_inv (bs : list Z) (st : console) :
  line_inv st -> line_inv (feed bs st).
Proof.
  revert st. induction bs as [|b bs IH]; intros st H; [done|].
  rewrite feed_cons. by apply IH, process_byte_line_inv.
Qed.

Lemma process_loop_line_inv (buf : list Z) (off : Z) (n : nat) (i : Z)
  (st : console) :
  line_inv st -> line_inv (console_process_loop buf off n i st).
Proof.
  revert i st. induction n as [|n IH]; intros i st H; [done|].
  cbn [console_process_loop]. by apply IH, process_byte_line_inv.
Qed.

Lemma process_bytes_line_inv (buf : list Z) (off len : Z) (st : console) :
  line_inv st -> line_inv (console_process_bytes buf off len st).
Proof.
  intros H. unfold console_process_bytes. by apply process_loop_line_inv.
Qed.

Lemma task_console_line_inv (buf : list Z) (ndtr : Z) (st : console) :
  line_inv st -> line_inv (task_console buf ndtr st).
Proof.
  intros H. unfold task_console.
  repeat case_match; try done;
    repeat (apply process_bytes_line_inv || assumption).
Qed.

Lemma reachable_line_inv (st : console) : reachable st -> line_inv st.
Proof.
  induction 1 as [|st _ IH|st buf ndtr _ IH _].
  - split; [by cbn|reflexivity].
  - exact IH.
  - by apply task_console_line_inv.
Qed.

(** ** Typing printable characters *)

Lemma feed_printable (bs : list Z) (st : console) :
  line_inv st ->
  Forall printable bs ->
  let room := Z.to_nat (LINE_BUF_SIZE - 1 - line_len st) in
  line_len (feed bs st) =
    Z.min (line_len st + Z.of_nat (length bs)) (LINE_BUF_SIZE - 1) /\
  line_text (feed bs st) = line_text st ++ take room bs /\
  uart_tx (feed bs st) = uart_tx st ++ echo (take room bs).
Proof.
  revert st. induction bs as [|b bs IH]; intros st Hinv Hpr room.
  - destruct Hinv as [Hlen _]. unfold LINE_BUF_SIZE in *.
    change (feed [] st) with st. rewrite take_nil. cbn [echo map length].
    rewrite !app_nil_r. split; [lia|done].
  - apply Forall_cons in Hpr as [Hb Hbs].
    rewrite feed_cons.
    pose proof (process_byte_line_inv b st Hinv) as Hinv'.
    destruct (IH _ Hinv' Hbs) as (Hl & Ht & Hu). clear IH.
    rewrite Hl, Ht, Hu. clear Hl Ht Hu.
    destruct Hinv as [Hlen Hbuf]. clear Hinv'.
    rewrite (process_printable b st Hb).
    unfold LINE_BUF_SIZE in *. subst room.
    destruct (Z.ltb_spec (line_len st) (64 - 1)) as [Hroom|Hfull].
    + cbn [line_len line_buf uart_tx length].
      rewrite uint8_small by lia.
      replace (Z.to_nat (64 - 1 - line_len st))
        with (S (Z.to_nat (64 - 1 - (line_len st + 1)))) by lia.
      cbn [take echo map].
      split; [lia|]. split; [|by rewrite <- app_assoc].
      unfold line_text; cbn [line_len line_buf].
      replace (Z.to_nat (line_len st + 1)) with (S (Z.to_nat (line_len st)))
        by lia.
      rewrite (take_S_r _ _ b) by (apply list_lookup_insert_eq; lia).
      rewrite take_insert_ge by lia.
      by rewrite <- app_assoc.
    + replace (Z.to_nat (64 - 1 - line_len st)) with 0%nat by lia.
      rewrite !take_0. cbn [length]. split; [lia|done].
Qed.

Lemma process_printable_full (c : Z) (st : console) :
  printable c -> line_len st = LINE_BUF_SIZE - 1 ->
  console_process_byte c st = st.
Proof.
  intros Hc Hfull. rewrite (process_printable c st Hc), Hfull.
  by rewrite Z.ltb_irrefl.
Qed.

(** ** The reader's cursor *)

Lemma task_console_last_pos (buf : list Z) (ndtr : Z) (st : console) :
  dma_last_pos (task_console buf ndtr st) =
  if rx_pending st =? 0 then dma_last_pos st else dma_pos ndtr.
Proof.
  unfold task_console. fold (dma_pos ndtr).
  destruct (rx_pending st =? 0); [done|].
  cbn [set_rx_pending dma_last_pos].
  destruct (Z.eqb_spec (dma_pos ndtr) (dma_last_pos st)); cbn [negb]; done.
Qed.

Lemma reachable_last_pos (st : console) :
  reachable st -> 0 <= dma_last_pos st < UART_RX_DMA_BUF_SIZE.
Proof.
  induction 1 as [|st _ IH|st buf ndtr _ IH Hn].
  - by cbn.
  - exact IH.
  - rewrite task_console_last_pos.
    destruct (rx_pending st =? 0); [done|].
    rewrite dma_pos_small by lia. lia.
Qed.

(** A whole buffer's worth of bytes between two polls goes unnoticed: the
    write position is back where the cursor stands, no span is handed over
    and nothing is echoed. *)
Lemma overrun_goes_unnoticed :
  let st := session (replicate 128 120) in
  dma_last_pos st = 0 /\
  handed (console_init console_boot) st = [] /\
  session_output (replicate 128 120) = [].
Proof. repeat split; vm_compute; reflexivity. Qed.

(** The counter of a circular stream never shows zero. *)
Lemma dma_receive_counter (bs buf : list Z) (ndtr : Z) :
  1 <= ndtr <= UART_RX_DMA_BUF_SIZE ->
  1 <= snd (dma_receive bs (buf, ndtr)) <= UART_RX_DMA_BUF_SIZE.
Proof.
  revert buf ndtr. induction bs as [|b bs IH]; intros buf ndtr H; [done|].
  rewrite dma_receive_cons. unfold dma_transfer. apply IH.
  unfold UART_RX_DMA_BUF_SIZE in *.
  destruct (Z.eqb_spec (ndtr - 1) 0); lia.
Qed.

(** ** The first line editor empties the line on overflow *)

Lemma Earlier_overflow_resets (c : Z) (st : console) :
  ~ (c = CR \/ c = LF) ->
  line_len st = LINE_BUF_SIZE - 1 ->
  line_len (Earlier.console_process_byte c st) = 0.
Proof.
  unfold Earlier.console_process_byte, CR, LF. intros Hc Hfull.
  replace ((c =? 13) || (c =? 10)) with false by lia.
  by rewrite Hfull, Z.ltb_irrefl.
Qed.

Lemma Earlier_63_then_64_letters :
  line_len (Earlier.feed (replicate 63 97) console_boot) = 63 /\
  line_len (Earlier.feed (replicate 64 97) console_boot) = 0.
Proof. split; vm_compute; reflexivity. Qed.

(** ** What the README's command table would answer *)

Lemma Step63_help :
  sent (Step63.con Step63.board_boot)
       (Step63.con (Step63.console_execute (lit "help") Step63.board_boot)) =
  [lit "help"; lit " - "; lit "show this help"; [CR; LF];
   lit "led"; lit " - "; lit "led off|slow|fast"; [CR; LF]].
Proof. vm_compute. reflexivity. Qed.

Lemma Step63_led_off :
  let b := Step63.console_execute (lit "led off") Step63.board_boot in
  sent (Step63.con Step63.board_boot) (Step63.con b) = [lit "ok" ++ [CR; LF]] /\
  Step63.led_set_mode_calls b = [Step63.LED_MODE_OFF].
Proof. split; vm_compute; reflexivity. Qed.

Lemma Step63_led_bogus :
  let b := Step63.console_execute (lit "led bogus") Step63.board_boot in
  sent (Step63.con Step63.board_boot) (Step63.con b) =
    [lit "invalid mode" ++ [CR; LF]] /\
  Step63.led_set_mode_calls b = [].
Proof. split; vm_compute; reflexivity. Qed.

Lemma Step63_led_alone :
  let b := Step63.console_execute (lit "led") Step63.board_boot in
  sent (Step63.con Step63.board_boot) (Step63.con b) =
    [lit "usage: led off|slow|fast" ++ [CR; LF]] /\
  Step63.led_set_mode_calls b = [].
Proof. split; vm_compute; reflexivity. Qed.

Lemma Step63_unknown :
  sent (Step63.con Step63.board_boot)
       (Step63.con (Step63.console_execute (lit "xyz") Step63.board_boot)) =
  [lit "unknown command" ++ [CR; LF]; str_prompt].
Proof. vm_compute. reflexivity. Qed.

(** * The claims *)

(** C3.  A poll while [rx_pending] is clear changes nothing: the state that
    comes back is the state that went in, so [dma_last_pos], [line_buf] and
    [line_len] are as before, nothing was transmitted and no span was
    handed to the line editor. *)
Theorem C3_poll_without_pending (buf : list Z) (ndtr : Z) (st : console) :
  rx_pending st = 0 ->
  let st' := task_console buf ndtr st in
  st' = st /\
  dma_last_pos st' = dma_last_pos st /\
  line_buf st' = line_buf st /\
  line_len st' = line_len st /\
  sent st st' = [] /\
  handed st st' = [].
Proof.
  intros H st'. subst st'. rewrite (task_console_idle buf ndtr st H).
  repeat split; [apply sent_app | apply handed_app]; by rewrite app_nil_r.
Qed.

Lemma C3_poll_without_pending_witness :
  rx_pending (console_init console_boot) = 0 /\
  task_console (lit "led off") 121 (console_init console_boot) =
  console_init console_boot.
Proof.
  split; [reflexivity|].
  apply (C3_poll_without_pending (lit "led off") 121
           (console_init console_boot)).
  reflexivity.
Defined.

(** C5.  An erase byte (0x08 or 0x7F) on a line of length > 0 shortens the
    line by exactly one and transmits the three bytes backspace, space,
    backspace in one transfer, leaving everything else as it was; on an
    empty line it does nothing at all: no output, and the length stays 0. *)
Theorem C5_erase (c : Z) (st : console) :
  c = 8 \/ c = 127 ->
  0 <= line_len st < 256 ->
  let st' := console_process_byte c st in
  (0 < line_len st ->
     line_len st' = line_len st - 1 /\
     sent st st' = [[8; 32; 8]] /\
     line_buf st' = line_buf st /\
     dma_last_pos st' = dma_last_pos st) /\
  (line_len st = 0 -> st' = st /\ sent st st' = [] /\ line_len st' = 0).
Proof.
  intros Hc Hlen st'. subst st'. rewrite (process_erase c st Hc). split.
  - intros Hpos. destruct (Z.ltb_spec 0 (line_len st)); [|lia].
    cbn [line_len line_buf dma_last_pos].
    rewrite uint8_small by lia.
    split; [done|]. split; [|done]. by apply sent_app.
  - intros Hz. rewrite Hz. cbn [Z.ltb Z.compare].
    split; [done|]. split; [|done]. apply sent_app. by rewrite app_nil_r.
Qed.

Lemma C5_erase_witness :
  line_len (console_process_byte 127 (feed (lit "ab") console_boot)) = 1 /\
  console_process_byte 8 console_boot = console_boot.
Proof.
  split.
  - assert (Hr : 0 <= line_len (feed (lit "ab") console_boot) < 256)
      by (vm_compute; split; [discriminate|reflexivity]).
    destruct (C5_erase 127 (feed (lit "ab") console_boot)
                (or_intror eq_refl) Hr) as [Hpos _].
    apply Hpos. reflexivity.
  - assert (Hr : 0 <= line_len console_boot < 256)
      by (vm_compute; split; [discriminate|reflexivity]).
    destruct (C5_erase 8 console_boot (or_introl eq_refl) Hr) as [_ Hzero].
    apply Hzero. reflexivity.
Defined.

(** C9.  A terminator on a non-empty line dispatches the line, and the
    dispatch ends in the prompt whatever the command was: the transfers of
    that step are the newline, the reply of the command, and then the
    prompt, which occurs exactly once among them and is the last one. *)
Theorem C9_prompt_once_per_line (c : Z) (st : console) :
  c = CR \/ c = LF ->
  0 < line_len st ->
  let st' := console_process_byte c st in
  let cmd := <[Z.to_nat (line_len st) := 0]> (line_buf st) in
  sent st st' = [str_crlf] ++ command_reply cmd ++ [str_prompt] /\
  transfers_of str_prompt (sent st st') = 1%nat /\
  last (sent st st') = Some str_prompt /\
  line_len st' = 0.
Proof.
  intros Hc Hlen st' cmd. subst st'.
  rewrite (process_terminator_line c st Hc Hlen). fold cmd.
  rewrite (sent_app st _ ([str_crlf] ++ command_reply cmd ++ [str_prompt]))
    by done.
  split; [done|]. split; [|split; [|done]].
  - unfold command_reply.
    destruct (strcmp cmd (lit "help") =? 0); vm_compute; reflexivity.
  - rewrite app_assoc. apply last_snoc.
Qed.

Lemma C9_prompt_once_per_line_witness :
  let st := feed (lit "led bogus") console_boot in
  transfers_of str_prompt (sent st (console_process_byte CR st)) = 1%nat.
Proof.
  apply (C9_prompt_once_per_line CR (feed (lit "led bogus") console_boot)).
  - by left.
  - vm_compute. reflexivity.
Defined.

(** C10.  A terminator on an empty line transmits the two bytes CR LF in one
    transfer and nothing more; in particular no prompt follows, and the
    rest of the state is untouched. *)
Theorem C10_empty_enter (c : Z) (st : console) :
  c = CR \/ c = LF ->
  line_len st = 0 ->
  let st' := console_process_byte c st in
  sent st st' = [[13; 10]] /\
  (str_prompt ∉ sent st st') /\
  st' = set_uart_tx (uart_tx st ++ [[13; 10]]) st.
Proof.
  intros Hc Hlen st'. subst st'.
  rewrite (process_terminator_empty c st Hc Hlen).
  rewrite (sent_app st _ [str_crlf]) by done.
  split; [done|]. split; [|done].
  intros H. apply list_elem_of_singleton in H. discriminate H.
Qed.

Lemma C10_empty_enter_witness :
  sent (console_init console_boot)
       (console_process_byte LF (console_init console_boot)) = [[13; 10]].
Proof.
  apply (C10_empty_enter LF (console_init console_boot)).
  - by right.
  - reflexivity.
Defined.

(** C2, as the code has it.  In every state the firmware can reach, the
    read cursor [dma_last_pos] lies in [0, 128); for every counter value a
    circular stream shows, 1 to 128, the write position the poll derives is
    128 minus the counter and lies in [0, 128); and the poll leaves the
    cursor in [0, 128). *)
Theorem C2_cursors_in_range (st : console) (buf : list Z) (ndtr : Z) :
  reachable st ->
  1 <= ndtr <= UART_RX_DMA_BUF_SIZE ->
  0 <= dma_last_pos st < UART_RX_DMA_BUF_SIZE /\
  dma_pos ndtr = UART_RX_DMA_BUF_SIZE - ndtr /\
  0 <= dma_pos ndtr < UART_RX_DMA_BUF_SIZE /\
  0 <= dma_last_pos (task_console buf ndtr st) < UART_RX_DMA_BUF_SIZE.
Proof.
  intros Hst Hn.
  split; [by apply reachable_last_pos|].
  rewrite dma_pos_small by lia.
  split; [done|]. split; [lia|].
  apply reachable_last_pos. by apply reach_poll.
Qed.

Lemma C2_cursors_in_range_witness :
  0 <= dma_last_pos
         (task_console (lit "help") 124
            (USART2_IRQHandler (console_init console_boot)))
    < UART_RX_DMA_BUF_SIZE.
Proof.
  apply (C2_cursors_in_range
           (USART2_IRQHandler (console_init console_boot))
           (lit "help") 124).
  - apply reach_irq, reach_init.
  - unfold UART_RX_DMA_BUF_SIZE. lia.
Defined.

(** C2 as stated fails at the counter value 0, which the claim allows: the
    poll then computes the write position 128, outside [0, 128), and stores
    it in [dma_last_pos]. *)
Lemma C2_counter_zero_leaves_range :
  let st := USART2_IRQHandler (console_init console_boot) in
  let buf := replicate 128 0 in
  0 <= 0 <= UART_RX_DMA_BUF_SIZE /\
  0 <= dma_last_pos st < UART_RX_DMA_BUF_SIZE /\
  dma_pos 0 = 128 /\
  ~ (0 <= dma_pos 0 < UART_RX_DMA_BUF_SIZE) /\
  dma_last_pos (task_console buf 0 st) = 128 /\
  ~ (0 <= dma_last_pos (task_console buf 0 st) < UART_RX_DMA_BUF_SIZE).
Proof.
  cbv zeta. unfold UART_RX_DMA_BUF_SIZE.
  assert (H : dma_last_pos
                (task_console (replicate 128 0) 0
                   (USART2_IRQHandler (console_init console_boot))) = 128)
    by (vm_compute; reflexivity).
  rewrite H. change (dma_pos 0) with 128.
  change (dma_last_pos (USART2_IRQHandler (console_init console_boot)))
    with 0.
  repeat split; lia.
Qed.

(** C1, as the code has it.  A poll with [rx_pending] set, the read cursor
    [last_pos] and the recomputed write position [head] both in [0, 128):
    - [head = last_pos]: no span is handed to the line editor;
    - [head > last_pos]: exactly one span, [last_pos, head);
    - [0 < head < last_pos]: exactly two spans, [last_pos, 128) and then
      [0, head);
    - [head = 0 < last_pos]: the single span [last_pos, 128), the empty
      second span is not handed over.
    Afterwards [dma_last_pos] is [head] and [rx_pending] is clear; the line
    editor has processed the bytes of the spans, in order, and nothing
    else; and when the DMA has received the bytes [bs], fewer than 128,
    since the cursor was last set, the spans replay exactly [bs]. *)
Theorem C1_poll_spans (st : console) (buf : list Z) (ndtr : Z) :
  rx_pending st <> 0 ->
  length buf = Z.to_nat UART_RX_DMA_BUF_SIZE ->
  let last_pos := dma_last_pos st in
  let head := dma_pos ndtr in
  0 <= last_pos < UART_RX_DMA_BUF_SIZE ->
  0 <= head < UART_RX_DMA_BUF_SIZE ->
  let st' := task_console buf ndtr st in
  let spans := handed st st' in
  (head = last_pos -> spans = []) /\
  (last_pos < head -> spans = [(last_pos, head - last_pos)]) /\
  (0 < head < last_pos ->
     spans = [(last_pos, UART_RX_DMA_BUF_SIZE - last_pos); (0, head)]) /\
  (head = 0 /\ 0 < last_pos ->
     spans = [(last_pos, UART_RX_DMA_BUF_SIZE - last_pos)]) /\
  dma_last_pos st' = head /\
  rx_pending st' = 0 /\
  st' = set_dma_last_pos head
          (set_rx_spans (rx_spans st ++ spans)
             (feed (replay buf spans) (set_rx_pending 0 st))) /\
  (forall buf0 bs,
     length buf0 = Z.to_nat UART_RX_DMA_BUF_SIZE ->
     (length bs < Z.to_nat UART_RX_DMA_BUF_SIZE)%nat ->
     dma_receive bs (buf0, UART_RX_DMA_BUF_SIZE - last_pos) = (buf, ndtr) ->
     replay buf spans = bs).
Proof.
  intros Hp Hbuf last_pos head Hlast Hhead st' spans.
  assert (Hst' : st' = set_dma_last_pos head
            (set_rx_spans (rx_spans st ++ poll_spans last_pos head)
               (feed (replay buf (poll_spans last_pos head))
                  (set_rx_pending 0 st))))
    by (apply task_console_pending; [done|done|lia|lia]).
  assert (Hspans : spans = poll_spans last_pos head).
  { unfold spans. apply handed_app. rewrite Hst'. cbn [rx_spans set_dma_last_pos
      set_rx_spans]. reflexivity. }
  rewrite Hspans. clearbody st' spans. clear Hspans spans.
  unfold poll_spans, UART_RX_DMA_BUF_SIZE in *.
  repeat split.
  - intros ->. by rewrite Z.eqb_refl.
  - intros Hlt. destruct (Z.eqb_spec head last_pos); [lia|].
    by destruct (Z.ltb_spec last_pos head); [|lia].
  - intros [H0 Hlt]. destruct (Z.eqb_spec head last_pos); [lia|].
    destruct (Z.ltb_spec last_pos head); [lia|].
    by destruct (Z.ltb_spec 0 head); [|lia].
  - intros [H0 Hlt]. destruct (Z.eqb_spec head last_pos); [lia|].
    destruct (Z.ltb_spec last_pos head); [lia|].
    by destruct (Z.ltb_spec 0 head); [lia|].
  - by rewrite Hst'.
  - rewrite Hst'. cbn [rx_pending set_dma_last_pos set_rx_spans].
    by destruct (feed_frame (replay buf
         (if head =? last_pos then []
          else if last_pos <? head then [(last_pos, head - last_pos)]
          else (last_pos, 128 - last_pos)
               :: (if 0 <? head then [(0, head)] else [])))
         (set_rx_pending 0 st)) as (-> & _).
  - exact Hst'.
  - intros buf0 bs Hbuf0 Hbs Hhw.
    destruct (dma_receive_replay buf0 bs last_pos) as (_ & _ & _ & Hr);
      [done|lia|lia|].
    rewrite Hhw in Hr. exact Hr.
Qed.

(** A wrapped poll: the cursor stands at 126 and the three bytes of "led"
    arrive, so the write position is 1. *)
Lemma C1_poll_spans_witness :
  let st := Console 1 126 (line_buf console_boot) 0 [] [] in
  let hw := dma_receive (lit "led") (replicate 128 0, 128 - 126) in
  let st' := task_console (fst hw) (snd hw) st in
  handed st st' = [(126, 2); (0, 1)] /\
  replay (fst hw) (handed st st') = lit "led" /\
  dma_last_pos st' = 1.
Proof.
  intros st hw st'.
  assert (Hp : rx_pending st <> 0) by discriminate.
  assert (Hb : length (fst hw) = Z.to_nat UART_RX_DMA_BUF_SIZE)
    by (vm_compute; reflexivity).
  assert (Hl : 0 <= dma_last_pos st < UART_RX_DMA_BUF_SIZE)
    by (vm_compute; split; [discriminate|reflexivity]).
  assert (Hh : 0 <= dma_pos (snd hw) < UART_RX_DMA_BUF_SIZE)
    by (vm_compute; split; [discriminate|reflexivity]).
  destruct (C1_poll_spans st (fst hw) (snd hw) Hp Hb Hl Hh)
    as (_ & _ & Htwo & _ & Hpos & _ & _ & Hreplay).
  split; [|split].
  - apply Htwo. vm_compute. split; reflexivity.
  - apply (Hreplay (replicate 128 0)).
    + reflexivity.
    + vm_compute. lia.
    + reflexivity.
  - exact Hpos.
Defined.

(** C1 as stated fails when the write position has wrapped to exactly 0.
    After "hello" (5 bytes) and a poll, 123 more bytes fill the buffer to
    its end: the counter reloads to 128, [head] is 0 and [last_pos] is 5,
    so [head < last_pos]; the poll hands over the one span [5, 128), not
    the two spans [5, 128) and [0, 0). *)
Lemma C1_one_span_when_head_is_zero :
  let hw0 := (replicate 128 0, 128) in
  let hw1 := dma_receive (lit "hello") hw0 in
  let st1 := task_console (fst hw1) (snd hw1)
               (USART2_IRQHandler (console_init console_boot)) in
  let hw2 := dma_receive (replicate 123 120) hw1 in
  let st := USART2_IRQHandler st1 in
  let st' := task_console (fst hw2) (snd hw2) st in
  rx_pending st <> 0 /\
  dma_last_pos st = 5 /\
  dma_pos (snd hw2) = 0 /\
  dma_pos (snd hw2) < dma_last_pos st /\
  handed st st' = [(5, 123)] /\
  handed st st' <> [(5, 123); (0, 0)] /\
  length (handed st st') <> 2%nat.
Proof.
  cbv zeta. repeat split; vm_compute; (reflexivity || discriminate).
Qed.

(** C4.  Whatever bytes arrive, the line length stays within 0..63: in
    every state the firmware can reach, and from any state with a valid
    line through [console_process_bytes] and through a whole poll.  Printable
    characters typed onto a line of length [n] are accepted while there is
    room and echoed one by one; those beyond the 63rd are dropped without
    echo and without touching the line: the text is the old text followed
    by the first [63 - n] characters typed.  In particular 64 or more
    printable characters on an empty line leave exactly the first 63, and a
    printable byte on a full line leaves the whole state as it was. *)
Theorem C4_line_overflow (st : console) (bs : list Z) :
  line_inv st ->
  Forall printable bs ->
  let n := line_len st in
  let room := Z.to_nat (LINE_BUF_SIZE - 1 - n) in
  (forall s, reachable s -> 0 <= line_len s <= LINE_BUF_SIZE - 1) /\
  (forall cs, 0 <= line_len (feed cs st) <= LINE_BUF_SIZE - 1) /\
  (forall buf off len,
     0 <= line_len (console_process_bytes buf off len st)
       <= LINE_BUF_SIZE - 1) /\
  (forall buf ndtr,
     0 <= line_len (task_console buf ndtr st) <= LINE_BUF_SIZE - 1) /\
  line_len (feed bs st) =
    Z.min (n + Z.of_nat (length bs)) (LINE_BUF_SIZE - 1) /\
  line_text (feed bs st) = line_text st ++ take room bs /\
  uart_tx (feed bs st) = uart_tx st ++ echo (take room bs) /\
  (n = 0 -> LINE_BUF_SIZE <= Z.of_nat (length bs) ->
     line_len (feed bs st) = LINE_BUF_SIZE - 1 /\
     line_text (feed bs st) = take 63 bs) /\
  (forall c, printable c -> n = LINE_BUF_SIZE - 1 ->
     console_process_byte c st = st).
Proof.
  intros Hinv Hpr n room. subst n room.
  destruct (feed_printable bs st Hinv Hpr) as (Hl & Ht & Hu).
  split; [intros s Hs; by apply reachable_line_inv|].
  split; [intros cs; by apply feed_line_inv|].
  split; [intros buf off len; by apply process_bytes_line_inv|].
  split; [intros buf ndtr; by apply task_console_line_inv|].
  split; [exact Hl|]. split; [exact Ht|]. split; [exact Hu|].
  split.
  - intros Hz Hmany. rewrite Hl, Ht. unfold line_text, LINE_BUF_SIZE in *.
    rewrite Hz. split; [lia|]. by rewrite take_0.
  - intros c Hc Hfull. by apply process_printable_full.
Qed.

(** Seventy times the letter a on a fresh line. *)
Lemma C4_line_overflow_witness :
  line_len (feed (replicate 70 97) console_boot) = 63 /\
  line_text (feed (replicate 70 97) console_boot) = replicate 63 97.
Proof.
  assert (Hinv : line_inv console_boot).
  { split; [vm_compute; split; discriminate|reflexivity]. }
  assert (Hpr : Forall printable (replicate 70 97)).
  { apply Forall_replicate. unfold printable. lia. }
  destruct (C4_line_overflow console_boot (replicate 70 97) Hinv Hpr)
    as (_ & _ & _ & _ & _ & _ & _ & Hfull & _).
  apply Hfull; [reflexivity|]. vm_compute. discriminate.
Defined.

(** C6.  On the bytes of "help" CR LF the console transmits the echo of the
    four letters, CR LF, the fixed line
    "help, led off, led slow, led fast" CR LF, the prompt, and one more
    CR LF for the LF byte; no transfer carries a "<name> - <help>" line. *)
Theorem C6_help_session :
  session_output (lit "help" ++ [CR; LF]) =
    echo (lit "help") ++
    [str_crlf; lit "help, led off, led slow, led fast" ++ [CR; LF];
     str_prompt; str_crlf] /\
  concat (session_output (lit "help" ++ [CR; LF])) <>
    lit "help" ++ [CR; LF]
    ++ lit "help - show this help" ++ [CR; LF]
    ++ lit "led - led off|slow|fast" ++ [CR; LF]
    ++ lit "> ".
Proof.
  split; vm_compute; [reflexivity|discriminate].
Qed.

(** C7.  On the bytes of "led off" CR LF the console transmits the echo,
    CR LF, the prompt and one more CR LF: the line is dispatched to
    [console_handle_command], which knows no command but help, so no
    "ok" CR LF is written (and console.c calls no LED function anywhere). *)
Theorem C7_led_off_session :
  session_output (lit "led off" ++ [CR; LF]) =
    echo (lit "led off") ++ [str_crlf; str_prompt; str_crlf] /\
  command_reply (lit "led off") = [] /\
  transfers_of (lit "ok" ++ [CR; LF])
    (session_output (lit "led off" ++ [CR; LF])) = 0%nat.
Proof.
  repeat split; vm_compute; reflexivity.
Qed.

(** C8.  On the bytes of "xyz" CR LF the console transmits the echo, CR LF,
    the prompt and one more CR LF: an unknown command gets no reply at
    all, no "unknown command" CR LF is written. *)
Theorem C8_unknown_command_session :
  session_output (lit "xyz" ++ [CR; LF]) =
    echo (lit "xyz") ++ [str_crlf; str_prompt; str_crlf] /\
  command_reply (lit "xyz") = [] /\
  transfers_of (lit "unknown command" ++ [CR; LF])
    (session_output (lit "xyz" ++ [CR; LF])) = 0%nat.
Proof.
  repeat split; vm_compute; reflexivity.
Qed.

(** * Further properties *)

(** ** Bytes the editor ignores *)

Lemma process_insignificant (c : Z) (st : console) :
  significant c = false -> console_process_byte c st = st.
Proof.
  unfold significant, console_process_byte. intros H.
  apply orb_false_iff in H as [H H3].
  apply orb_false_iff in H as [H1 H2].
  by rewrite H1, H2, H3.
Qed.

(** X1.  Bytes that are neither a terminator, nor an erase byte, nor
    printable (other control characters, bytes from 0x80 up) can be taken
    out of any input without changing what the editor does: the state and
    the output after the whole input are those after the significant bytes
    alone. *)
Theorem ignored_bytes_drop_out (bs : list Z) (st : console) :
  feed bs st = feed (List.filter significant bs) st.
Proof.
  revert st. induction bs as [|b bs IH]; intros st; [done|].
  rewrite feed_cons. cbn [List.filter].
  destruct (significant b) eqn:Hb.
  - rewrite feed_cons. apply IH.
  - rewrite (process_insignificant b st Hb). apply IH.
Qed.

(** ** The editor and the reader's variables *)

Lemma process_loop_frame (buf : list Z) (off : Z) (n : nat) (i : Z)
  (st : console) :
  rx_pending (console_process_loop buf off n i st) = rx_pending st /\
  dma_last_pos (console_process_loop buf off n i st) = dma_last_pos st /\
  rx_spans (console_process_loop buf off n i st) = rx_spans st.
Proof.
  revert i st. induction n as [|n IH]; intros i st; [done|].
  cbn [console_process_loop].
  destruct (IH (i + 1) (console_process_byte (rx_byte buf off i) st))
    as (-> & -> & ->).
  apply process_byte_frame.
Qed.

(** X2.  [console_process_bytes] never writes [rx_pending] or
    [dma_last_pos], whatever the bytes are and wherever the span lies, and
    it is entered once: the span log grows by this one span. *)
Theorem process_bytes_leaves_reader_alone (buf : list Z) (off len : Z)
  (st : console) :
  let st' := console_process_bytes buf off len st in
  rx_pending st' = rx_pending st /\
  dma_last_pos st' = dma_last_pos st /\
  handed st st' = [(off, len)].
Proof.
  cbv zeta. unfold console_process_bytes.
  destruct (process_loop_frame buf off (Z.to_nat len) 0
              (set_rx_spans (rx_spans st ++ [(off, len)]) st))
    as (Hp & Hd & Hs).
  split; [by rewrite Hp|]. split; [by rewrite Hd|].
  apply handed_app. by rewrite Hs.
Qed.

Lemma process_bytes_rx_spans (buf : list Z) (off len : Z) (st : console) :
  rx_spans (console_process_bytes buf off len st) =
  rx_spans st ++ [(off, len)].
Proof.
  unfold console_process_bytes.
  by destruct (process_loop_frame buf off (Z.to_nat len) 0
                 (set_rx_spans (rx_spans st ++ [(off, len)]) st))
    as (_ & _ & ->).
Qed.

Lemma process_bytes_rx_pending (buf : list Z) (off len : Z) (st : console) :
  rx_pending (console_process_bytes buf off len st) = rx_pending st.
Proof.
  unfold console_process_bytes.
  by destruct (process_loop_frame buf off (Z.to_nat len) 0
                 (set_rx_spans (rx_spans st ++ [(off, len)]) st))
    as (-> & _ & _).
Qed.

Lemma task_console_clears_pending (buf : list Z) (ndtr : Z) (st : console) :
  rx_pending (task_console buf ndtr st) = 0.
Proof.
  unfold task_console.
  destruct (Z.eqb_spec (rx_pending st) 0) as [H|_]; [exact H|].
  repeat case_match;
    cbn [set_dma_last_pos rx_pending]; rewrite ?process_bytes_rx_pending;
    reflexivity.
Qed.

(** X3.  One poll uses the pending flag up: whatever the state, the flag is
    clear after [task_console], so a second poll with no interrupt in
    between does nothing, even if the DMA has moved on meanwhile. *)
Theorem second_poll_is_idle (buf buf' : list Z) (ndtr ndtr' : Z)
  (st : console) :
  rx_pending (task_console buf ndtr st) = 0 /\
  task_console buf' ndtr' (task_console buf ndtr st) =
  task_console buf ndtr st.
Proof.
  split; [apply task_console_clears_pending|].
  apply task_console_idle, task_console_clears_pending.
Qed.

(** ** Where the poll reads *)

Lemma task_console_spans (buf : list Z) (ndtr : Z) (st : console) :
  rx_pending st <> 0 ->
  0 <= dma_last_pos st <= UART_RX_DMA_BUF_SIZE ->
  0 <= dma_pos ndtr <= UART_RX_DMA_BUF_SIZE ->
  rx_spans (task_console buf ndtr st) =
  rx_spans st ++ poll_spans (dma_last_pos st) (dma_pos ndtr).
Proof.
  intros Hp Hlast Hhead. unfold task_console, poll_spans.
  destruct (Z.eqb_spec (rx_pending st) 0) as [|_]; [done|].
  fold (dma_pos ndtr). set (head := dma_pos ndtr) in *.
  cbn [set_rx_pending dma_last_pos]. set (last := dma_last_pos st) in *.
  unfold UART_RX_DMA_BUF_SIZE in *.
  destruct (Z.eqb_spec head last) as [Heq|Hne]; cbn [negb].
  - by rewrite app_nil_r.
  - cbn [set_dma_last_pos rx_spans].
    destruct (Z.ltb_spec last head) as [Hlt|Hge].
    + rewrite process_bytes_rx_spans, uint16_small by lia. reflexivity.
    + rewrite uint16_small by lia.
      destruct (Z.ltb_spec 0 head).
      * rewrite !process_bytes_rx_spans. cbn [rx_spans].
        by rewrite <- app_assoc.
      * by rewrite process_bytes_rx_spans.
Qed.

(** X4.  A poll reads inside the receive buffer only: with the cursor
    anywhere in [0, 128] and any counter value in [0, 128] (zero included),
    every span handed to the line editor starts at a non-negative offset
    and ends at or before index 128.  With cursor and write position both
    below 128, the spans together hold (head - last_pos) mod 128 bytes and
    none of them is empty. *)
Theorem poll_reads_within_buffer (buf : list Z) (ndtr : Z) (st : console) :
  0 <= dma_last_pos st <= UART_RX_DMA_BUF_SIZE ->
  0 <= ndtr <= UART_RX_DMA_BUF_SIZE ->
  let spans := handed st (task_console buf ndtr st) in
  Forall span_in_buffer spans /\
  (dma_last_pos st < UART_RX_DMA_BUF_SIZE -> 1 <= ndtr ->
     Forall (fun sp => 0 < snd sp) spans /\
     (rx_pending st <> 0 ->
      fold_right Z.add 0 (map snd spans) =
      (dma_pos ndtr - dma_last_pos st) mod UART_RX_DMA_BUF_SIZE)).
Proof.
  intros Hlast Hn spans. subst spans.
  destruct (Z.eq_dec (rx_pending st) 0) as [Hidle|Hp].
  - rewrite (task_console_idle buf ndtr st Hidle).
    rewrite (handed_app st st []) by (by rewrite app_nil_r).
    split; [constructor|]. intros _ _. split; [constructor|done].
  - pose proof (dma_pos_small ndtr Hn) as Hhead.
    rewrite (handed_app st _ (poll_spans (dma_last_pos st) (dma_pos ndtr)))
      by (apply task_console_spans; [done|done|rewrite Hhead; lia]).
    rewrite Hhead. clear Hhead.
    unfold poll_spans, span_in_buffer, UART_RX_DMA_BUF_SIZE in *.
    set (last := dma_last_pos st) in *. set (head := 128 - ndtr).
    assert (Hh : 0 <= head <= 128) by (subst head; lia).
    assert (Hh1 : 1 <= ndtr -> head < 128) by (subst head; lia).
    clearbody head last.
    destruct (Z.eqb_spec head last) as [Heq|Hne].
    + split; [constructor|]. intros _ _. split; [constructor|].
      intros _. subst. by rewrite Z.sub_diag.
    + destruct (Z.ltb_spec last head) as [Hlt|Hge].
      * split; [repeat constructor; cbn; lia|]. intros Hl H1.
        split; [repeat constructor; cbn; lia|]. intros _. cbn.
        rewrite Z.mod_small by lia. lia.
      * destruct (Z.ltb_spec 0 head) as [Hpos|Hzero].
        -- split; [repeat constructor; cbn; lia|]. intros Hl H1.
           split; [repeat constructor; cbn; lia|]. intros _. cbn.
           replace (head - last) with (128 - last + head + (-1) * 128) by lia.
           rewrite Z.mod_add by lia. rewrite Z.mod_small by lia. lia.
        -- split; [repeat constructor; cbn; lia|]. intros Hl H1.
           split; [repeat constructor; cbn; lia|]. intros _. cbn.
           replace (head - last) with (128 - last + (-1) * 128) by lia.
           rewrite Z.mod_add by lia. rewrite Z.mod_small by lia. lia.
Qed.

Lemma poll_reads_within_buffer_witness :
  Forall span_in_buffer
    (handed (Console 1 128 (line_buf console_boot) 0 [] [])
       (task_console (replicate 128 0) 100
          (Console 1 128 (line_buf console_boot) 0 [] []))).
Proof.
  apply (poll_reads_within_buffer (replicate 128 0) 100
           (Console 1 128 (line_buf console_boot) 0 [] []));
    vm_compute; split; discriminate.
Defined.

(** ** What the line holds *)

Lemma line_text_length (st : console) :
  line_inv st -> length (line_text st) = Z.to_nat (line_len st).
Proof.
  intros [Hlen Hbuf]. unfold line_text, LINE_BUF_SIZE in *.
  rewrite length_take. lia.
Qed.

Lemma process_byte_line_ok (c : Z) (st : console) :
  line_ok st -> line_ok (console_process_byte c st).
Proof.
  intros [Hinv Hpr]. split; [by apply process_byte_line_inv|].
  destruct Hinv as [Hlen Hbuf]. unfold LINE_BUF_SIZE in *.
  destruct (byte_class c) as [Hc|[Hc|[Hc|Hc]]].
  - destruct (decide (line_len st = 0)) as [Hz|Hnz].
    + by rewrite (process_terminator_empty c st Hc Hz).
    + rewrite (process_terminator_line c st Hc) by lia.
      unfold line_text; cbn [line_len line_buf]. constructor.
  - rewrite (process_erase c st Hc).
    destruct (Z.ltb_spec 0 (line_len st)); [|done].
    unfold line_text in *; cbn [line_len line_buf].
    rewrite uint8_small by lia.
    replace (Z.to_nat (line_len st - 1))
      with (Z.to_nat (line_len st - 1) `min` Z.to_nat (line_len st))%nat
      by lia.
    rewrite <- take_take. by apply Forall_take.
  - rewrite (process_printable c st Hc). unfold LINE_BUF_SIZE.
    destruct (Z.ltb_spec (line_len st) (64 - 1)); [|done].
    unfold line_text in *; cbn [line_len line_buf].
    rewrite uint8_small by lia.
    replace (Z.to_nat (line_len st + 1)) with (S (Z.to_nat (line_len st)))
      by lia.
    rewrite (take_S_r _ _ c) by (apply list_lookup_insert_eq; lia).
    rewrite take_insert_ge by lia.
    apply Forall_app. split; [done|]. by constructor.
  - by rewrite Hc.
Qed.

Lemma feed_line_ok (bs : list Z) (st : console) :
  line_ok st -> line_ok (feed bs st).
Proof.
  revert st. induction bs as [|b bs IH]; intros st H; [done|].
  rewrite feed_cons. by apply IH, process_byte_line_ok.
Qed.

Lemma process_loop_line_ok (buf : list Z) (off : Z) (n : nat) (i : Z)
  (st : console) :
  line_ok st -> line_ok (console_process_loop buf off n i st).
Proof.
  revert i st. induction n as [|n IH]; intros i st H; [done|].
  cbn [console_process_loop]. by apply IH, process_byte_line_ok.
Qed.

Lemma process_bytes_line_ok (buf : list Z) (off len : Z) (st : console) :
  line_ok st -> line_ok (console_process_bytes buf off len st).
Proof.
  intros H. unfold console_process_bytes. by apply process_loop_line_ok.
Qed.

Lemma task_console_line_ok (buf : list Z) (ndtr : Z) (st : console) :
  line_ok st -> line_ok (task_console buf ndtr st).
Proof.
  intros H. unfold task_console.
  destruct (rx_pending st =? 0); [done|].
  destruct (negb _); [|done].
  change (line_ok (set_dma_last_pos ?v ?s)) with (line_ok s).
  destruct (_ <? _).
  - by apply process_bytes_line_ok.
  - destruct (0 <? _); repeat apply process_bytes_line_ok; done.
Qed.

(** X5.  The line never holds anything but printable characters: in every
    state the firmware can reach, and after any bytes whatever fed to a
    line that was so, the [line_len] characters of [line_buf] all lie in
    0x20..0x7E (so none of them is a NUL, and the command string handed to
    the handler is the whole line). *)
Theorem line_holds_printable_only (st : console) (bs : list Z) :
  (reachable st \/ line_ok st) ->
  Forall printable (line_text st) /\
  Forall printable (line_text (feed bs st)) /\
  (forall buf ndtr, Forall printable (line_text (task_console buf ndtr st))).
Proof.
  intros H.
  assert (Hok : line_ok st).
  { destruct H as [H|H]; [|done].
    induction H as [|st _ IH|st buf ndtr _ IH _].
    - split; [split; [by cbn|reflexivity]|constructor].
    - exact IH.
    - by apply task_console_line_ok. }
  split; [apply Hok|]. split; [by apply feed_line_ok|].
  intros buf ndtr. by apply task_console_line_ok.
Qed.

Lemma line_holds_printable_only_witness :
  Forall printable
    (line_text (feed [104; 7; 105; 200; 8; 101] (console_init console_boot))).
Proof.
  apply (line_holds_printable_only (console_init console_boot)
           [104; 7; 105; 200; 8; 101]).
  left. apply reach_init.
Defined.

(** ** C strings *)

Lemma cstr_of_cons (c : Z) (s : cstr) :
  cstr_of (c :: s) = if c =? 0 then [] else c :: cstr_of s.
Proof. unfold cstr_of. cbn [strlen]. by destruct (c =? 0). Qed.

Lemma strcmp_zero (a b : cstr) : strcmp a b = 0 <-> cstr_of a = cstr_of b.
Proof.
  revert b. induction a as [|x a IH]; intros [|y b].
  - done.
  - cbn [strcmp]. rewrite cstr_of_cons.
    destruct (Z.eqb_spec y 0); split; (done || lia).
  - cbn [strcmp]. rewrite cstr_of_cons.
    destruct (Z.eqb_spec x 0); split; (done || lia).
  - cbn [strcmp]. rewrite !cstr_of_cons.
    destruct (Z.eqb_spec x y) as [->|Hne].
    + destruct (Z.eqb_spec y 0); [done|].
      rewrite IH. split; [by intros ->|]. by intros [= ->].
    + destruct (Z.eqb_spec x 0), (Z.eqb_spec y 0); split;
        (lia || done || (intros [= ?]; lia)).
Qed.

Lemma cstr_of_terminated (t rest : list Z) :
  Forall (fun c => c <> 0) t -> cstr_of (t ++ 0 :: rest) = t.
Proof.
  induction 1 as [|c t Hc _ IH]; [done|].
  cbn [app]. rewrite cstr_of_cons, IH.
  by destruct (Z.eqb_spec c 0).
Qed.

Lemma printable_no_nul (t : list Z) :
  Forall printable t -> Forall (fun c => c <> 0) t.
Proof.
  intros H. eapply Forall_impl; [exact H|]. unfold printable. cbn. lia.
Qed.

(** The string the handler gets is the line as typed. *)
Lemma command_string (st : console) :
  line_ok st ->
  cstr_of (<[Z.to_nat (line_len st) := 0]> (line_buf st)) = line_text st.
Proof.
  intros [[Hlen Hbuf] Hpr]. unfold LINE_BUF_SIZE in *.
  rewrite insert_take_drop by lia.
  apply cstr_of_terminated. by apply printable_no_nul.
Qed.

Lemma command_reply_help (cmd : cstr) :
  command_reply cmd =
  if decide (cstr_of cmd = lit "help") then [str_help] else [].
Proof.
  unfold command_reply.
  destruct (Z.eqb_spec (strcmp cmd (lit "help")) 0) as [H|H];
    rewrite strcmp_zero in H; change (cstr_of (lit "help")) with (lit "help") in H;
    by destruct (decide (cstr_of cmd = lit "help")).
Qed.

Lemma feed_snoc (bs : list Z) (c : Z) (st : console) :
  feed (bs ++ [c]) st = console_process_byte c (feed bs st).
Proof. by rewrite feed_app. Qed.

(** X6.  Typing a line and pressing Enter.  Printable characters [t] typed
    onto a line that has room for them, then a terminator: the console
    echoes each character, sends CR LF, answers with the help text exactly
    when the whole line (what was there before plus [t]) reads help,
    letter for letter, and with nothing otherwise, sends the prompt, and
    the line is empty again. *)
Theorem typed_line_dispatch (t : list Z) (c : Z) (st : console) :
  line_ok st ->
  Forall printable t ->
  0 < line_len st + Z.of_nat (length t) <= LINE_BUF_SIZE - 1 ->
  c = CR \/ c = LF ->
  let st' := feed (t ++ [c]) st in
  sent st st' =
    echo t ++ [str_crlf]
    ++ (if decide (line_text st ++ t = lit "help") then [str_help] else [])
    ++ [str_prompt] /\
  line_len st' = 0 /\
  line_text st' = [].
Proof.
  intros Hok Hpr Hfit Hc st'. subst st'. rewrite feed_snoc.
  pose proof (feed_line_ok t st Hok) as Hok1.
  destruct Hok as [Hinv Hold].
  destruct (feed_printable t st Hinv Hpr) as (Hl & Ht & Hu).
  pose proof Hinv as [Hlen Hbuf]. unfold LINE_BUF_SIZE in *.
  rewrite take_ge in Ht, Hu by lia.
  rewrite Z.min_l in Hl by lia.
  rewrite (process_terminator_line c _ Hc) by lia.
  rewrite command_reply_help, (command_string _ Hok1), Ht.
  unfold line_text. cbn [line_len line_buf uart_tx].
  split; [|by rewrite take_0].
  apply sent_app. cbn [uart_tx]. rewrite Hu, <- !app_assoc. reflexivity.
Qed.

Lemma typed_line_dispatch_witness :
  sent (console_init console_boot)
       (feed (lit "Help" ++ [CR]) (console_init console_boot)) =
  echo (lit "Help") ++ [str_crlf; str_prompt].
Proof.
  assert (Hok : line_ok (console_init console_boot)).
  { split; [split; [by cbn|reflexivity]|constructor]. }
  assert (Hpr : Forall printable (lit "Help")).
  { repeat constructor; vm_compute; discriminate. }
  destruct (typed_line_dispatch (lit "Help") CR (console_init console_boot)
              Hok Hpr) as [Hsent _].
  - vm_compute. split; [reflexivity|discriminate].
  - by left.
  - exact Hsent.
Defined.

(** X7.  A line ended by two terminators in a row (CR LF, as terminals
    send it) is dispatched once: the first one sends CR LF, the reply and
    the prompt, the second one finds the line empty and only adds another
    CR LF after the prompt. *)
Theorem double_terminator_dispatches_once (c1 c2 : Z) (st : console) :
  c1 = CR \/ c1 = LF ->
  c2 = CR \/ c2 = LF ->
  0 < line_len st ->
  let st' := feed [c1; c2] st in
  let cmd := <[Z.to_nat (line_len st) := 0]> (line_buf st) in
  sent st st' =
    [str_crlf] ++ command_reply cmd ++ [str_prompt; str_crlf] /\
  transfers_of str_prompt (sent st st') = 1%nat /\
  line_len st' = 0.
Proof.
  intros H1 H2 Hlen st' cmd. subst st'.
  rewrite !feed_cons. change (feed [] ?s) with s.
  rewrite (process_terminator_line c1 st H1 Hlen). fold cmd.
  rewrite (process_terminator_empty c2 _ H2) by done.
  cbn [uart_tx set_uart_tx line_len].
  rewrite (sent_app st _
             ([str_crlf] ++ command_reply cmd ++ [str_prompt; str_crlf])).
  - split; [done|]. split; [|done].
    unfold command_reply.
    destruct (strcmp cmd (lit "help") =? 0); vm_compute; reflexivity.
  - cbn [uart_tx]. rewrite <- !app_assoc. reflexivity.
Qed.

Lemma double_terminator_dispatches_once_witness :
  transfers_of str_prompt
    (sent (feed (lit "help") console_boot)
          (feed [CR; LF] (feed (lit "help") console_boot))) = 1%nat.
Proof.
  apply (double_terminator_dispatches_once CR LF
           (feed (lit "help") console_boot)).
  - by left.
  - by right.
  - vm_compute. reflexivity.
Defined.

(** ** Erasing *)

Lemma feed_erase (es : list Z) (st : console) :
  line_inv st ->
  Forall erase_byte es ->
  let k := Nat.min (length es) (Z.to_nat (line_len st)) in
  line_len (feed es st) = line_len st - Z.of_nat k /\
  line_buf (feed es st) = line_buf st /\
  uart_tx (feed es st) = uart_tx st ++ replicate k str_erase.
Proof.
  revert st. induction es as [|e es IH]; intros st Hinv Hes k; subst k.
  - change (feed [] st) with st. cbn [length Nat.min replicate].
    rewrite app_nil_r. split; [lia|done].
  - apply Forall_cons in Hes as [He Hes]. rewrite feed_cons.
    pose proof (process_byte_line_inv e st Hinv) as Hinv'.
    destruct (IH _ Hinv' Hes) as (Hl & Hb & Hu). clear IH.
    rewrite Hl, Hb, Hu. clear Hl Hb Hu Hinv'.
    destruct Hinv as [Hlen _]. unfold LINE_BUF_SIZE in *.
    rewrite (process_erase e st He).
    destruct (Z.ltb_spec 0 (line_len st)) as [Hpos|Hzero].
    + cbn [line_len line_buf uart_tx length]. rewrite uint8_small by lia.
      replace (S (length es) `min` Z.to_nat (line_len st))%nat
        with (S (length es `min` Z.to_nat (line_len st - 1))%nat) by lia.
      cbn [replicate]. rewrite <- app_assoc.
      split; [lia|done].
    + replace (Z.to_nat (line_len st)) with 0%nat by lia.
      rewrite !Nat.min_0_r. cbn [replicate]. split; [lia|done].
Qed.

(** X8.  Erase bytes (0x08 and 0x7F, in any mix) remove one character
    each from the end of the line for as long as there is one, and each
    removal sends one erase sequence; the ones that find the line empty do
    nothing.  After [n] of them on a line of length [m] the line is the
    first [m - n] characters of what it was (empty if [n >= m]) and
    min([n], [m]) erase sequences have been sent. *)
Theorem erase_run (es : list Z) (st : console) :
  line_inv st ->
  Forall erase_byte es ->
  let st' := feed es st in
  let k := Nat.min (length es) (Z.to_nat (line_len st)) in
  line_len st' = Z.max (line_len st - Z.of_nat (length es)) 0 /\
  line_text st' = take (Z.to_nat (line_len st) - length es) (line_text st) /\
  sent st st' = replicate k str_erase.
Proof.
  intros Hinv Hes st' k. subst st' k.
  destruct (feed_erase es st Hinv Hes) as (Hl & Hb & Hu).
  destruct Hinv as [Hlen _]. unfold LINE_BUF_SIZE in *.
  split; [lia|]. split; [|by apply sent_app].
  unfold line_text. rewrite Hl, Hb, take_take. f_equal. lia.
Qed.

Lemma erase_run_witness :
  line_text (feed [BS; DEL; BS] (feed (lit "ab") console_boot)) = [] /\
  sent (feed (lit "ab") console_boot)
       (feed [BS; DEL; BS] (feed (lit "ab") console_boot)) =
  [str_erase; str_erase].
Proof.
  assert (Hinv : line_inv (feed (lit "ab") console_boot)).
  { split; [vm_compute; split; discriminate|reflexivity]. }
  assert (Hes : Forall erase_byte [BS; DEL; BS]).
  { repeat constructor; by (left + right). }
  destruct (erase_run [BS; DEL; BS] (feed (lit "ab") console_boot) Hinv Hes)
    as (_ & Ht & Hs).
  split; [exact Ht|exact Hs].
Defined.

(** X9.  Erasing takes back what was typed: printable characters [t]
    typed onto a line with room for them, followed by as many erase bytes,
    leave the line as it was before, its length and its text; on the wire
    are the echo of [t] and one erase sequence per character. *)
Theorem type_then_erase (t es : list Z) (st : console) :
  line_inv st ->
  Forall printable t ->
  Forall erase_byte es ->
  length es = length t ->
  line_len st + Z.of_nat (length t) <= LINE_BUF_SIZE - 1 ->
  let st' := feed (t ++ es) st in
  line_len st' = line_len st /\
  line_text st' = line_text st /\
  sent st st' = echo t ++ replicate (length t) str_erase.
Proof.
  intros Hinv Hpr Hes Hsame Hfit st'. subst st'. rewrite feed_app.
  pose proof (feed_line_inv t st Hinv) as Hinv1.
  destruct (feed_printable t st Hinv Hpr) as (Hl & Ht & Hu).
  destruct (feed_erase es _ Hinv1 Hes) as (Hl' & Hb' & Hu').
  pose proof (line_text_length st Hinv) as Hn.
  destruct Hinv as [Hlen Hbuf]. unfold LINE_BUF_SIZE in *.
  rewrite take_ge in Ht, Hu by lia.
  rewrite Z.min_l in Hl by lia.
  rewrite Hl in Hl', Hu'. rewrite Hsame in Hl', Hu'.
  replace (length t `min` Z.to_nat (line_len st + Z.of_nat (length t)))%nat
    with (length t) in Hl', Hu' by lia.
  split; [lia|]. split.
  - unfold line_text at 1. rewrite Hl', Hb'.
    replace (line_len st + Z.of_nat (length t) - Z.of_nat (length t))
      with (line_len st) by lia.
    assert (Hpre : take (Z.to_nat (line_len st))
                     (take (Z.to_nat (line_len (feed t st)))
                        (line_buf (feed t st))) = line_text st).
    { fold (line_text (feed t st)). rewrite Ht.
      by rewrite take_app_length' by lia. }
    rewrite take_take in Hpre. rewrite <- Hpre. f_equal. lia.
  - apply sent_app. rewrite Hu', Hu. by rewrite <- app_assoc.
Qed.

Lemma type_then_erase_witness :
  line_text (feed (lit "led" ++ [DEL; BS; BS]) (feed (lit "xy") console_boot))
  = lit "xy".
Proof.
  assert (Hinv : line_inv (feed (lit "xy") console_boot)).
  { split; [vm_compute; split; discriminate|reflexivity]. }
  assert (Hpr : Forall printable (lit "led")).
  { repeat constructor; vm_compute; discriminate. }
  assert (Hes : Forall erase_byte [DEL; BS; BS]).
  { repeat constructor; by (left + right). }
  destruct (type_then_erase (lit "led") [DEL; BS; BS]
              (feed (lit "xy") console_boot) Hinv Hpr Hes)
    as (_ & Ht & _).
  - reflexivity.
  - vm_compute. discriminate.
  - exact Ht.
Defined.

(** ** Poll after poll *)

Lemma feed_dma_last_pos (bs : list Z) (v : Z) (st : console) :
  feed bs (set_dma_last_pos v st) = set_dma_last_pos v (feed bs st).
Proof.
  revert st. induction bs as [|b bs IH]; intros st; [done|].
  rewrite !feed_cons, process_byte_dma_last_pos. apply IH.
Qed.

Lemma same_line_feed (bs : list Z) (st1 st2 : console) :
  same_line st1 st2 -> same_line (feed bs st1) (feed bs st2).
Proof.
  destruct st1 as [p1 d1 b1 l1 u1 s1], st2 as [p2 d2 b2 l2 u2 s2].
  intros (Hb & Hl & Hu). cbn in Hb, Hl, Hu. subst b1 l1 u1.
  change (Console p1 d1 b2 l2 u2 s1)
    with (set_rx_pending p1
            (set_dma_last_pos d1
               (set_rx_spans s1 (Console p2 d2 b2 l2 u2 s2)))).
  rewrite feed_rx_pending, feed_dma_last_pos, feed_rx_spans.
  by repeat split.
Qed.

Lemma same_line_trans (st1 st2 st3 : console) :
  same_line st1 st2 -> same_line st2 st3 -> same_line st1 st3.
Proof.
  intros (Hb & Hl & Hu) (Hb' & Hl' & Hu').
  repeat split; congruence.
Qed.

Lemma poll_once_step (sys : console * (list Z * Z)) (bs : list Z) :
  in_step sys ->
  (length bs < Z.to_nat UART_RX_DMA_BUF_SIZE)%nat ->
  in_step (poll_once sys bs) /\
  same_line (fst (poll_once sys bs)) (feed bs (fst sys)) /\
  dma_last_pos (fst (poll_once sys bs)) =
    (dma_last_pos (fst sys) + Z.of_nat (length bs)) mod UART_RX_DMA_BUF_SIZE.
Proof.
  destruct sys as [st [buf ndtr]]. unfold in_step, poll_once.
  cbn [fst snd]. unfold UART_RX_DMA_BUF_SIZE. intros (Hbuf & Hn & Hsync) Hbs.
  replace ndtr with (128 - dma_last_pos st) by lia.
  destruct (dma_receive_replay buf bs (dma_last_pos st))
    as (Hbuf' & Hn' & Hpos & Hreplay); [done|lia|lia|].
  set (hw := dma_receive bs (buf, 128 - dma_last_pos st)) in *.
  assert (Hsmall : dma_pos (snd hw) = 128 - snd hw)
    by (apply dma_pos_small; unfold UART_RX_DMA_BUF_SIZE; lia).
  rewrite (task_console_pending (fst hw) (snd hw) (USART2_IRQHandler st));
    [|discriminate|done|cbn; unfold UART_RX_DMA_BUF_SIZE; lia
     |unfold UART_RX_DMA_BUF_SIZE; lia].
  change (dma_last_pos (USART2_IRQHandler st)) with (dma_last_pos st).
  rewrite Hreplay.
  change (set_rx_pending 0 (USART2_IRQHandler st)) with (set_rx_pending 0 st).
  rewrite feed_rx_pending. cbn [set_dma_last_pos set_rx_spans set_rx_pending
    dma_last_pos line_buf line_len uart_tx].
  split; [split; [done|split; [done|lia]]|].
  split; [by repeat split|]. by rewrite Hpos.
Qed.

(** X10.  No byte is lost or seen twice across polls.  From a state in
    which the cursor stands where the DMA will write next, let bursts of
    fewer than 128 bytes arrive, each followed by the idle interrupt and a
    poll: the line and everything transmitted are exactly what the line
    editor makes of all the bytes in arrival order, as if they had come in
    one piece; the cursor has advanced by their number modulo 128 and
    stands again where the DMA will write next. *)
Theorem polls_process_every_byte_once (bursts : list (list Z))
  (sys : console * (list Z * Z)) :
  in_step sys ->
  Forall (fun bs => (length bs < Z.to_nat UART_RX_DMA_BUF_SIZE)%nat) bursts ->
  let st' := fst (run bursts sys) in
  same_line st' (feed (concat bursts) (fst sys)) /\
  dma_last_pos st' =
    (dma_last_pos (fst sys) + Z.of_nat (length (concat bursts)))
      mod UART_RX_DMA_BUF_SIZE /\
  in_step (run bursts sys).
Proof.
  intros Hsys Hall. cbv zeta. revert sys Hsys.
  induction Hall as [|bs bursts Hbs _ IH]; intros sys Hsys.
  - cbn [run fold_left concat length]. change (feed [] ?s) with s.
    split; [by repeat split|]. split; [|done].
    destruct Hsys as (_ & Hn & Hsync). unfold UART_RX_DMA_BUF_SIZE in *.
    rewrite Z.add_0_r, Z.mod_small; lia.
  - change (run (bs :: bursts) sys) with (run bursts (poll_once sys bs)).
    destruct (poll_once_step sys bs Hsys Hbs) as (Hstep & Hline & Hpos).
    destruct (IH _ Hstep) as (Hline' & Hpos' & Hstep').
    split; [|split; [|done]].
    + cbn [concat]. rewrite feed_app.
      eapply same_line_trans; [exact Hline'|]. by apply same_line_feed.
    + rewrite Hpos', Hpos. cbn [concat]. rewrite length_app, Nat2Z.inj_add.
      rewrite Zplus_mod_idemp_l. f_equal. lia.
Qed.

(** The line "led fast" arrives in three pieces. *)
Lemma polls_process_every_byte_once_witness :
  let sys := (console_init console_boot, (replicate 128 0, 128)) in
  let bursts := [lit "le"; lit "d fa"; lit "st" ++ [CR; LF]] in
  uart_tx (fst (run bursts sys)) =
  uart_tx (feed (lit "led fast" ++ [CR; LF]) (console_init console_boot)).
Proof.
  intros sys bursts.
  assert (Hsys : in_step sys) by (repeat split; vm_compute; discriminate).
  assert (Hall : Forall
            (fun bs => (length bs < Z.to_nat UART_RX_DMA_BUF_SIZE)%nat)
            bursts).
  { repeat constructor; vm_compute; lia. }
  destruct (polls_process_every_byte_once bursts sys Hsys Hall)
    as ((_ & _ & Hu) & _).
  exact Hu.
Defined.

(** ** The first line editor *)

Lemma Earlier_feed_cons (b : Z) (bs : list Z) (st : console) :
  Earlier.feed (b :: bs) st =
  Earlier.feed bs (Earlier.console_process_byte b st).
Proof. reflexivity. Qed.

Lemma Earlier_feed_app (bs1 bs2 : list Z) (st : console) :
  Earlier.feed (bs1 ++ bs2) st = Earlier.feed bs2 (Earlier.feed bs1 st).
Proof. unfold Earlier.feed. apply fold_left_app. Qed.

Lemma Earlier_process_char (c : Z) (st : console) :
  ~ terminator c ->
  Earlier.console_process_byte c st =
  if line_len st <? LINE_BUF_SIZE - 1
  then Console (rx_pending st) (dma_last_pos st)
         (<[Z.to_nat (line_len st) := c]> (line_buf st))
         (uint8 (line_len st + 1)) (uart_tx st) (rx_spans st)
  else set_line_len 0 st.
Proof.
  unfold terminator, Earlier.console_process_byte, CR, LF. intros Hc.
  by replace ((c =? 13) || (c =? 10)) with false by lia.
Qed.

Lemma Earlier_feed_chars (t : list Z) (st : console) :
  line_inv st ->
  Forall (fun c => ~ terminator c) t ->
  line_len st + Z.of_nat (length t) <= LINE_BUF_SIZE - 1 ->
  line_inv (Earlier.feed t st) /\
  line_len (Earlier.feed t st) = line_len st + Z.of_nat (length t) /\
  line_text (Earlier.feed t st) = line_text st ++ t /\
  uart_tx (Earlier.feed t st) = uart_tx st.
Proof.
  revert st. induction t as [|c t IH]; intros st Hinv Ht Hfit.
  - change (Earlier.feed [] st) with st. cbn [length].
    rewrite app_nil_r. repeat split; try apply Hinv. lia.
  - apply Forall_cons in Ht as [Hc Ht]. rewrite Earlier_feed_cons.
    destruct Hinv as [Hlen Hbuf]. unfold LINE_BUF_SIZE in *.
    cbn [length] in Hfit.
    rewrite (Earlier_process_char c st Hc). unfold LINE_BUF_SIZE.
    destruct (Z.ltb_spec (line_len st) (64 - 1)); [|lia].
    rewrite uint8_small by lia.
    set (st1 := Console _ _ _ _ _ _).
    assert (Hinv1 : line_inv st1).
    { unfold line_inv, LINE_BUF_SIZE. cbn [line_len line_buf st1].
      split; [lia|]. by rewrite length_insert. }
    destruct (IH st1 Hinv1 Ht) as (Hinv' & Hl & Htx & Hu); [cbn; lia|].
    split; [done|]. rewrite Hl, Htx, Hu. cbn [length line_len uart_tx st1].
    split; [lia|]. split; [|done].
    unfold line_text; cbn [line_len line_buf st1].
    replace (Z.to_nat (line_len st + 1)) with (S (Z.to_nat (line_len st)))
      by lia.
    rewrite (take_S_r _ _ c) by (apply list_lookup_insert_eq; lia).
    rewrite take_insert_ge by lia. by rewrite <- app_assoc.
Qed.

(** X11.  The first line editor sends a line back when it is complete and
    not before.  Bytes other than CR and LF typed onto a line with room for
    them are stored and nothing is transmitted; the terminator then sends
    the whole line in one transfer, then CR LF, and empties the line.  Any
    byte counts as a character here, control characters and NUL included. *)
Theorem Earlier_line_sent_back (t : list Z) (c : Z) (st : console) :
  line_inv st ->
  Forall (fun c => ~ terminator c) t ->
  0 < line_len st + Z.of_nat (length t) <= LINE_BUF_SIZE - 1 ->
  terminator c ->
  sent st (Earlier.feed t st) = [] /\
  sent st (Earlier.feed (t ++ [c]) st) = [line_text st ++ t; str_crlf] /\
  line_len (Earlier.feed (t ++ [c]) st) = 0.
Proof.
  intros Hinv Ht Hfit Hc.
  destruct (Earlier_feed_chars t st Hinv Ht) as (Hinv' & Hl & Htx & Hu);
    [lia|].
  split; [apply sent_app; by rewrite app_nil_r|].
  rewrite Earlier_feed_app. set (st1 := Earlier.feed t st) in *.
  change (Earlier.feed [c] st1) with (Earlier.console_process_byte c st1).
  unfold Earlier.console_process_byte.
  rewrite (is_terminator c Hc).
  destruct (Z.ltb_spec 0 (line_len st1)); [|lia].
  destruct Hinv' as [Hlen' Hbuf']. unfold LINE_BUF_SIZE in *.
  cbn [set_line_buf line_buf line_len].
  unfold HAL_UART_Transmit at 2.
  cbn [set_line_buf line_buf line_len uart_tx].
  rewrite take_insert_ge by lia. fold (line_text st1). rewrite Htx.
  rewrite transmit_crlf. cbn [set_uart_tx set_line_len uart_tx line_len].
  split; [|done]. apply sent_app. rewrite Hu, <- app_assoc. reflexivity.
Qed.

Lemma Earlier_line_sent_back_witness :
  sent console_boot (Earlier.feed (lit "hello" ++ [CR]) console_boot) =
  [lit "hello"; str_crlf].
Proof.
  assert (Hinv : line_inv console_boot).
  { split; [vm_compute; split; discriminate|reflexivity]. }
  assert (Ht : Forall (fun c => ~ terminator c) (lit "hello")).
  { repeat constructor; intros [H|H]; discriminate H. }
  destruct (Earlier_line_sent_back (lit "hello") CR console_boot Hinv Ht)
    as (_ & Hs & _).
  - vm_compute. split; [reflexivity|discriminate].
  - by left.
  - exact Hs.
Defined.

(** X12.  The first line editor empties the line on overflow: the 64th
    byte in a row that is not a terminator is not stored and sets the
    length back to 0, so after [n] such bytes on a line of length [m] the
    length is (m + n) mod 64. *)
Theorem Earlier_length_wraps (bs : list Z) (st : console) :
  line_inv st ->
  Forall (fun c => ~ terminator c) bs ->
  line_len (Earlier.feed bs st) =
  (line_len st + Z.of_nat (length bs)) mod LINE_BUF_SIZE.
Proof.
  revert st. induction bs as [|c bs IH]; intros st Hinv Hbs.
  - destruct Hinv as [Hlen _]. unfold LINE_BUF_SIZE in *.
    change (Earlier.feed [] st) with st. cbn [length].
    rewrite Z.add_0_r, Z.mod_small; lia.
  - apply Forall_cons in Hbs as [Hc Hbs]. rewrite Earlier_feed_cons.
    destruct Hinv as [Hlen Hbuf]. unfold LINE_BUF_SIZE in *.
    rewrite (Earlier_process_char c st Hc). unfold LINE_BUF_SIZE.
    cbn [length]. rewrite Nat2Z.inj_succ.
    destruct (Z.ltb_spec (line_len st) (64 - 1)).
    + rewrite IH; [| |done].
      * cbn [line_len]. rewrite uint8_small by lia. f_equal. lia.
      * unfold line_inv, LINE_BUF_SIZE. cbn [line_len line_buf].
        rewrite uint8_small by lia. split; [lia|].
        by rewrite length_insert.
    + rewrite IH; [| |done].
      * cbn [set_line_len line_len].
        replace (line_len st + Z.succ (Z.of_nat (length bs)))
          with (0 + Z.of_nat (length bs) + 1 * 64) by lia.
        by rewrite Z.mod_add by lia.
      * unfold line_inv, LINE_BUF_SIZE. cbn [set_line_len line_len line_buf].
        split; [lia|done].
Qed.

Lemma Earlier_length_wraps_witness :
  line_len (Earlier.feed (replicate 70 97) console_boot) = 6.
Proof.
  assert (Hinv : line_inv console_boot).
  { split; [vm_compute; split; discriminate|reflexivity]. }
  assert (Hbs : Forall (fun c => ~ terminator c) (replicate 70 97)).
  { apply Forall_replicate. intros [H|H]; discriminate H. }
  exact (Earlier_length_wraps (replicate 70 97) console_boot Hinv Hbs).
Defined.

(** ** The command table of the README *)

Lemma console_write_tx (s : cstr) (st : console) :
  console_write s st = set_uart_tx (uart_tx st ++ [cstr_of s]) st.
Proof. reflexivity. Qed.

Lemma Step63_write_sent (s : cstr) (b : Step63.board) :
  cstr_of s = s ->
  sent (Step63.con b) (Step63.con (Step63.write s b)) = [s] /\
  Step63.led_mode (Step63.write s b) = Step63.led_mode b /\
  Step63.led_set_mode_calls (Step63.write s b) = Step63.led_set_mode_calls b.
Proof.
  intros Hs. split; [|done]. apply sent_app.
  unfold Step63.write. cbn [Step63.con].
  rewrite console_write_tx, Hs. reflexivity.
Qed.

Lemma strcmp_lit (a : cstr) (w : string) :
  cstr_of (lit w) = lit w ->
  (strcmp a (lit w) =? 0) = bool_decide (cstr_of a = lit w).
Proof.
  intros Hw. destruct (Z.eqb_spec (strcmp a (lit w)) 0) as [H|H];
    rewrite strcmp_zero, Hw in H.
  - by rewrite bool_decide_eq_true_2.
  - by rewrite bool_decide_eq_false_2.
Qed.

(** X13.  The led command of the README, for every argument vector.  With
    no word after the command it writes the usage line; with a second word
    that reads off, slow or fast (exactly, lower case) it calls
    [led_set_mode] once, with that mode, and writes ok; with any other
    second word it writes invalid mode.  On the two failure paths the LED
    driver is not called, and words after the second are never looked at. *)
Theorem Step63_cmd_led (argv : list cstr) (b : Step63.board) :
  let b' := Step63.cmd_led argv b in
  let reply := sent (Step63.con b) (Step63.con b') in
  match argv with
  | _ :: arg :: _ =>
      match led_word (cstr_of arg) with
      | Some m =>
          reply = [lit "ok" ++ [CR; LF]] /\
          Step63.led_mode b' = m /\
          Step63.led_set_mode_calls b' = Step63.led_set_mode_calls b ++ [m]
      | None =>
          reply = [lit "invalid mode" ++ [CR; LF]] /\
          Step63.led_mode b' = Step63.led_mode b /\
          Step63.led_set_mode_calls b' = Step63.led_set_mode_calls b
      end
  | _ =>
      reply = [lit "usage: led off|slow|fast" ++ [CR; LF]] /\
      Step63.led_mode b' = Step63.led_mode b /\
      Step63.led_set_mode_calls b' = Step63.led_set_mode_calls b
  end.
Proof.
  cbv zeta. unfold Step63.cmd_led.
  destruct argv as [|a0 [|arg rest]];
    try (cbn [length Nat.ltb Nat.leb]; by apply Step63_write_sent).
  cbn [length Nat.ltb Nat.leb nth].
  rewrite !strcmp_lit by reflexivity. unfold led_word.
  repeat case_bool_decide;
    repeat (destruct (decide _); try done);
    (split; [by apply (Step63_write_sent _ (Step63.led_set_mode _ b))
                || by apply Step63_write_sent|done]).
Qed.

(** What the help command of the README writes: for each entry of the
    table its name, a separator, its help text and CR LF. *)
Lemma Step63_cmd_help_sent (argv : list cstr) (b : Step63.board) :
  sent (Step63.con b) (Step63.con (Step63.cmd_help argv b)) =
    [lit "help"; lit " - "; lit "show this help"; [CR; LF];
     lit "led"; lit " - "; lit "led off|slow|fast"; [CR; LF]] /\
  Step63.led_mode (Step63.cmd_help argv b) = Step63.led_mode b /\
  Step63.led_set_mode_calls (Step63.cmd_help argv b) =
    Step63.led_set_mode_calls b.
Proof.
  split; [|done]. apply sent_app.
  unfold Step63.cmd_help, Step63.cmd_table.
  cbn [fold_left Step63.name Step63.help Step63.write Step63.con].
  rewrite !console_write_tx. cbn [uart_tx set_uart_tx].
  rewrite <- !app_assoc. reflexivity.
Qed.

(** X14.  The dispatcher of the README.  A line without a token (empty or
    spaces only) changes nothing and writes nothing.  Otherwise the first
    token decides: help writes the table and led runs the led command, in
    both cases without a prompt afterwards; any other first token gets
    the message unknown command followed by the prompt, and the LED is
    left alone. *)
Theorem Step63_console_execute (line : cstr) (b : Step63.board) :
  let b' := Step63.console_execute line b in
  let reply := sent (Step63.con b) (Step63.con b') in
  match take 8 (Step63.strtok_all line []) with
  | [] => b' = b
  | arg0 :: rest =>
      if decide (cstr_of arg0 = lit "help") then
        b' = Step63.cmd_help (arg0 :: rest) b /\
        transfers_of str_prompt reply = 0%nat
      else if decide (cstr_of arg0 = lit "led") then
        b' = Step63.cmd_led (arg0 :: rest) b /\
        transfers_of str_prompt reply = 0%nat
      else
        reply = [lit "unknown command" ++ [CR; LF]; str_prompt] /\
        Step63.led_mode b' = Step63.led_mode b /\
        Step63.led_set_mode_calls b' = Step63.led_set_mode_calls b
  end.
Proof.
  cbv zeta. unfold Step63.console_execute.
  destruct (take 8 (Step63.strtok_all line [])) as [|arg0 rest]; [done|].
  unfold Step63.cmd_table. cbn [Step63.lookup_cmd Step63.name].
  rewrite !strcmp_lit by reflexivity.
  destruct (decide (cstr_of arg0 = lit "help")) as [Hh|Hh].
  - rewrite bool_decide_eq_true_2 by done. cbn [Step63.fn Step63.call].
    split; [done|].
    destruct (Step63_cmd_help_sent (arg0 :: rest) b) as (-> & _).
    vm_compute. reflexivity.
  - rewrite bool_decide_eq_false_2 by done.
    destruct (decide (cstr_of arg0 = lit "led")) as [Hl|Hl].
    + rewrite bool_decide_eq_true_2 by done. cbn [Step63.fn Step63.call].
      split; [done|].
      pose proof (Step63_cmd_led (arg0 :: rest) b) as H. cbv zeta in H.
      destruct rest as [|arg rest].
      * destruct H as (-> & _). vm_compute. reflexivity.
      * destruct (led_word (cstr_of arg)); destruct H as (-> & _);
          vm_compute; reflexivity.
    + rewrite bool_decide_eq_false_2 by done.
      split; [|done]. apply sent_app.
      unfold Step63.prompt, Step63.write. cbn [Step63.con].
      rewrite console_prompt_tx, console_write_tx.
      cbn [uart_tx set_uart_tx]. rewrite <- app_assoc. reflexivity.
Qed.
